(** * otyang/converter: currency registry, exchange rates and quotes

    A shallow embedding of [converter.go] and the properties of its
    specification.

    - [decimal] models the part of [github.com/shopspring/decimal] that
      [converter.go] calls: a decimal is an unscaled integer [value] and a
      power-of-ten exponent [exp] (an [int32]); it denotes
      [value * 10 ^ exp].  The operations follow the library: [Div] rounds
      half away from zero at [DivisionPrecision] digits and panics on a zero
      divisor, [Mul] and [Add] are exact, [RoundCeil] rounds towards plus
      infinity.
    - [GoStrings] is the interface of the two functions of Go's [strings]
      package the code uses, [ToUpper] and [EqualFold]; [ASCII] implements
      them on ASCII text (ISO 4217 codes), the Unicode tables of Go's
      runtime being outside the repository.
    - [converter] is the code of [converter.go]: [NewCurrencies],
      [FindCurrency], [CalculateRate] and [NewQuote].  A call either
      returns a value, returns an error, or panics, and leaves a trace of
      the registry methods it called.
    - [json] is what [encoding/json] does with a source slice that has no
      elements: the text [json.Marshal] writes for it and what
      [json.Unmarshal] reads from that text into a [[]Currency]. *)

From Stdlib Require Import ZArith QArith Qpower Qfield Qabs Lia List String Ascii Bool.
Import ListNotations.
Local Open Scope Z_scope.

(** ** Machine integers *)

Definition MaxInt32 : Z := 2147483647.
Definition MinInt32 : Z := -2147483648.

(** The conversion [int32(x)] of a wider integer: the low 32 bits, signed. *)
Definition int32 (x : Z) : Z := (x + 2147483648) mod 4294967296 - 2147483648.

Definition in_int32 (x : Z) : Prop := MinInt32 <= x <= MaxInt32.

(** ** Panics *)

Inductive panic : Type :=
| PanicDivisionByZero          (* "decimal division by 0" *)
| PanicQuoRemOverflow          (* "overflow in decimal QuoRem" *)
| PanicExponentOverflow (e : Z) (* "exponent %v overflows an int32!" *).

(** A call of a function that has no error result: it returns or panics. *)
Inductive call (A : Type) : Type :=
| Returns (a : A)
| Panics (p : panic).
Arguments Returns {A} a.
Arguments Panics {A} p.

(** ** The decimal library *)

Module decimal.

(** [type Decimal struct { value *big.Int; exp int32 }] *)
Record Decimal : Type := New { value : Z; exp : Z }.

Definition NewFromInt (v : Z) : Decimal := New v 0.

(** [var Zero = New(0, 1)] *)
Definition Zero : Decimal := New 0 1.

(** [var DivisionPrecision = 16] *)
Definition DivisionPrecision : Z := 16.

(** [big.Int.Cmp]: -1, 0 or +1. *)
Definition bigCmp (x y : Z) : Z :=
  match x ?= y with Lt => -1 | Eq => 0 | Gt => 1 end.

(** [rescale]: the same number at exponent [e]; digits below [e] are
    dropped ([big.Int.Quo] truncates towards zero). *)
Definition rescale (d : Decimal) (e : Z) : Decimal :=
  if exp d =? e then d
  else
    let diff := Z.abs (e - exp d) in
    let expScale := 10 ^ diff in
    if exp d <? e then New (Z.quot (value d) expScale) e
    else New (value d * expScale) e.

Definition RescalePair (d1 d2 : Decimal) : Decimal * Decimal :=
  if exp d1 <? exp d2 then (d1, rescale d2 (exp d1))
  else if exp d2 <? exp d1 then (rescale d1 (exp d2), d2)
  else (d1, d2).

Definition Add (d d2 : Decimal) : Decimal :=
  let '(rd, rd2) := RescalePair d d2 in
  New (value rd + value rd2) (exp rd).

Definition Sub (d d2 : Decimal) : Decimal :=
  let '(rd, rd2) := RescalePair d d2 in
  New (value rd - value rd2) (exp rd).

Definition Abs (d : Decimal) : Decimal := New (Z.abs (value d)) (exp d).

Definition Cmp (d d2 : Decimal) : Z :=
  if exp d =? exp d2 then bigCmp (value d) (value d2)
  else
    let '(rd, rd2) := RescalePair d d2 in
    bigCmp (value rd) (value rd2).

Definition Equal (d d2 : Decimal) : bool := Cmp d d2 =? 0.

(** [Mul]: exact; panics when the sum of the exponents leaves [int32]. *)
Definition Mul (d d2 : Decimal) : call Decimal :=
  let expInt64 := exp d + exp d2 in
  if (MaxInt32 <? expInt64) || (expInt64 <? MinInt32)
  then Panics (PanicExponentOverflow expInt64)
  else Returns (New (value d * value d2) expInt64).

(** [QuoRem]: quotient with [precision] digits after the point and the
    remainder, [d = d2 * q + r]; [big.Int.QuoRem] truncates. *)
Definition QuoRem (d d2 : Decimal) (precision : Z) : call (Decimal * Decimal) :=
  if Z.sgn (value d2) =? 0 then Panics PanicDivisionByZero
  else
    let scale := int32 (- precision) in
    let e := exp d - exp d2 - scale in
    if (MaxInt32 <? e) || (e <? MinInt32) then Panics PanicQuoRemOverflow
    else
      let '(aa, bb, scalerest) :=
        if e <? 0
        then (value d, value d2 * 10 ^ (- e), exp d)
        else (value d * 10 ^ e, value d2, int32 (scale + exp d2)) in
      Returns (New (Z.quot aa bb) scale, New (Z.rem aa bb) scalerest).

(** [DivRound]: the quotient rounded half away from zero at [precision]
    digits. *)
Definition DivRound (d d2 : Decimal) (precision : Z) : call Decimal :=
  match QuoRem d d2 precision with
  | Panics p => Panics p
  | Returns (q, r) =>
      let rv2 := Z.abs (value r) * 2 in
      let r2 := New rv2 (int32 (exp r + precision)) in
      let c := Cmp r2 (Abs d2) in
      if c <? 0 then Returns q
      else if Z.sgn (value d) * Z.sgn (value d2) <? 0
           then Returns (Sub q (New 1 (int32 (- precision))))
           else Returns (Add q (New 1 (int32 (- precision))))
  end.

Definition Div (d d2 : Decimal) : call Decimal :=
  DivRound d d2 (int32 DivisionPrecision).

(** [RoundCeil]: rounds towards plus infinity at [places] digits. *)
Definition RoundCeil (d : Decimal) (places : Z) : Decimal :=
  if int32 (- places) <=? exp d then d
  else
    let rescaled := rescale d (int32 (- places)) in
    if Equal d rescaled then d
    else if 0 <? Z.sgn (value d) then New (value rescaled + 1) (exp rescaled)
         else rescaled.

(** The rational number a decimal denotes. *)
Definition to_Q (d : Decimal) : Q :=
  (inject_Z (value d) * (10 # 1) ^ exp d)%Q.

(** [r] is [x] rounded up at [places] decimal digits: the least multiple
    of [10 ^ - places] that is not below [x]. *)
Definition is_ceil_at (x : Q) (places : Z) (r : Decimal) : Prop :=
  (x <= to_Q r)%Q /\
  (exists k : Z, (to_Q r == inject_Z k * (10 # 1) ^ (- places))%Q) /\
  (forall k : Z, (x <= inject_Z k * (10 # 1) ^ (- places))%Q ->
                 (to_Q r <= inject_Z k * (10 # 1) ^ (- places))%Q).

End decimal.

Import decimal.


(** ** Go's [strings] package *)

(** The two functions of [strings] that [converter.go] calls.  [ToUpper]
    maps a string to upper case; [EqualFold] reports whether two strings
    are equal under simple Unicode case folding. *)
Class GoStrings : Type := {
  ToUpper : string -> string;
  EqualFold : string -> string -> bool
}.

(** The two functions on ASCII text, following the ASCII paths of Go's
    implementation: [ToUpper] subtracts ['a' - 'A'] from the bytes between
    ['a'] and ['z'], [EqualFold] walks the two strings byte by byte.  A byte
    of 0x80 and above has no case here, where Go decodes a rune and
    consults its Unicode tables. *)
Module ASCII.

Definition byte_le (a b : ascii) : bool := (N_of_ascii a <=? N_of_ascii b)%N.
Definition byte_lt (a b : ascii) : bool := (N_of_ascii a <? N_of_ascii b)%N.

(** [c -= 'a' - 'A'] *)
Definition subCase (c : ascii) : ascii := ascii_of_N (N_of_ascii c - 32).
(** [c + 'a' - 'A'], a byte *)
Definition addCase (c : ascii) : ascii := ascii_of_N ((N_of_ascii c + 32) mod 256).

Definition upperByte (c : ascii) : ascii :=
  if byte_le "a" c && byte_le c "z" then subCase c else c.

Fixpoint ToUpper (s : string) : string :=
  match s with
  | EmptyString => EmptyString
  | String c s' => String (upperByte c) (ToUpper s')
  end.

(** One step of the loop of [EqualFold] on the bytes [sr] and [tr]. *)
Definition foldEq (sr tr : ascii) : bool :=
  if Ascii.eqb tr sr then true
  else
    let '(sr, tr) := if byte_lt tr sr then (tr, sr) else (sr, tr) in
    byte_le "A" sr && byte_le sr "Z" && Ascii.eqb tr (addCase sr).

Fixpoint EqualFold (s t : string) : bool :=
  match s, t with
  | EmptyString, EmptyString => true
  | String sr s', String tr t' => if foldEq sr tr then EqualFold s' t' else false
  | _, _ => false
  end.

Definition strings : GoStrings := Build_GoStrings ToUpper EqualFold.

(** Every byte. *)
Definition all_bytes : list ascii := map ascii_of_nat (seq 0 256).

End ASCII.

(** ** converter.go *)

Module converter.

(** Currency errors.  [ErrCurrencyNotFound] is a format string in the
    source, filled with the requested code by [fmt.Errorf];
    [ErrCurrencyObjectEmpty] is the unnamed [errors.New] of [NewQuote];
    [ErrJSON] is an error of [encoding/json], with its message. *)
Inductive error : Type :=
| ErrCurrencyNotFound (code : string)
| ErrEmptyCurrencySource
| ErrBaseCurrencyNotFound
| ErrCurrencyObjectEmpty
| ErrJSON (msg : string).

(** [err.Error()] *)
Definition Error (e : error) : string :=
  match e with
  | ErrCurrencyNotFound code => "currency " ++ code ++ " not found"
  | ErrEmptyCurrencySource => "empty currency source: no rates or currency"
  | ErrBaseCurrencyNotFound => "base currency not found"
  | ErrCurrencyObjectEmpty => "currency object empty. shouldnt be"
  | ErrJSON msg => msg
  end%string.

Record Currency : Type := {
  ISOCode : string;
  Precision : Z;          (* Go's [int], 64 bits *)
  BuyRate : Decimal;
  SellRate : Decimal
}.

(** The registry; its [sync.RWMutex] guards a slice that nothing writes
    after construction and is left out. *)
Record Currencies : Type := { currencies : list Currency }.

(** [time.Time], as an instant counted from some epoch. *)
Definition Time : Type := Z.

Record Quote : Type := {
  BaseCurrency : string;
  FromCurrency : string;
  FromAmount : Decimal;
  Fee : Decimal;
  AmountToDeduct : Decimal;
  Rate : Decimal;
  ToCurrency : string;
  FinalAmount : Decimal;
  Date : Time
}.

(** *** Calls: result, panic and trace *)

(** What a call of a function with an [error] result does: it returns a
    value and a nil error, it returns an error (next to the zero value of
    the result type, [decimal.Zero] or a nil pointer, which is left out),
    or it panics. *)
Inductive result (A : Type) : Type :=
| Ok (a : A)
| Err (e : error)
| Panic (p : panic).
Arguments Ok {A} a.
Arguments Err {A} e.
Arguments Panic {A} p.

(** The calls of [FindCurrency] and [CalculateRate], in the order they
    are made: what a call did to the registry besides its result. *)
Inductive event : Type :=
| EvFindCurrency (code : string)
| EvCalculateRate (baseCurrency from to : string).

(** A computation: the calls it made and how it ended. *)
Definition M (A : Type) : Type := list event * result A.

Definition ret {A} (a : A) : M A := ([], Ok a).
Definition fail {A} (e : error) : M A := ([], Err e).
Definition emit (ev : event) : M unit := ([ev], Ok tt).

Definition bind {A B} (m : M A) (k : A -> M B) : M B :=
  match m with
  | (t, Ok a) => let '(t', r) := k a in (t ++ t', r)
  | (t, Err e) => (t, Err e)
  | (t, Panic p) => (t, Panic p)
  end.

(** [if err != nil { return ..., e }]: any error of [m] becomes [e]. *)
Definition orFail {A} (m : M A) (e : error) : M A :=
  match m with
  | (t, Err _) => (t, Err e)
  | _ => m
  end.

Definition lift {A} (c : call A) : M A :=
  match c with
  | Returns a => ret a
  | Panics p => ([], Panic p)
  end.

Declare Scope go_scope.
Delimit Scope go_scope with go.
Notation "x <- m ;; k" := (bind m (fun x => k))
  (at level 61, m at next level, right associativity) : go_scope.
Notation "m ;; k" := (bind m (fun _ => k))
  (at level 61, right associativity) : go_scope.

Definition trace {A} (m : M A) : list event := fst m.
Definition outcome {A} (m : M A) : result A := snd m.

(** *** NewCurrencies *)

Section NewCurrencies.
(** The element type of the source and [encoding/json] on it:
    [json.Marshal] of the source slice and [json.Unmarshal] of bytes
    into a [[]Currency]. *)
Variable T : Type.
Variable json_Marshal : list T -> string + list Byte.byte.
Variable json_Unmarshal : list Byte.byte -> string + list Currency.

Definition NewCurrencies (sourceRates : list T) : result Currencies :=
  match json_Marshal sourceRates with
  | inl err => Err (ErrJSON err)
  | inr b =>
      match json_Unmarshal b with
      | inl err => Err (ErrJSON err)
      | inr currencies =>
          if (Z.of_nat (List.length currencies) =? 0)
          then Err ErrEmptyCurrencySource
          else Ok {| currencies := currencies |}
      end
  end.
End NewCurrencies.

Section Registry.
Context {go_strings : GoStrings}.
Local Open Scope go_scope.

(** *** FindCurrency *)

Definition FindCurrency (c : Currencies) (code : string) : M Currency :=
  emit (EvFindCurrency code) ;;
  if Z.of_nat (List.length (currencies c)) =? 0 then fail ErrEmptyCurrencySource
  else
    match find (fun cur => EqualFold (ISOCode cur) code) (currencies c) with
    | Some cur => ret cur
    | None => fail (ErrCurrencyNotFound code)
    end.

(** *** CalculateRate *)

Definition CalculateRate (c : Currencies) (baseCurrency from to : string)
  : M Decimal :=
  emit (EvCalculateRate baseCurrency from to) ;;
  let baseCurrency := ToUpper (ToUpper baseCurrency) in
  let from := ToUpper (ToUpper from) in
  let to := ToUpper (ToUpper to) in
  (* Same Currency Conversion *)
  if String.eqb from to then ret (NewFromInt 1)
  else
    _ <- orFail (FindCurrency c baseCurrency) ErrBaseCurrencyNotFound ;;
    (* Base to Target Currency (Sell Rate) *)
    if String.eqb from baseCurrency then
      toCurrency <- FindCurrency c to ;;
      ret (SellRate toCurrency)
    (* Target to Base Currency (Buy Rate) *)
    else if String.eqb to baseCurrency then
      fromCurrency <- FindCurrency c from ;;
      lift (Div (NewFromInt 1) (BuyRate fromCurrency))
    (* Cross Rate Conversion *)
    else
      fromCurrency <- FindCurrency c from ;;
      toCurrency <- FindCurrency c to ;;
      q <- lift (Div (NewFromInt 1) (BuyRate fromCurrency)) ;;
      lift (Mul q (SellRate toCurrency)).

(** *** NewQuote *)

(** [rateSource] is a pointer and may be nil; [now] is the value
    [time.Now()] returns. *)
Definition NewQuote (now : Time) (rateSource : option Currencies)
    (baseCurrency fromCurrency toCurrency : string)
    (fromAmount fee : Decimal) : M Quote :=
  match rateSource with
  | None => fail ErrCurrencyObjectEmpty
  | Some rateSource =>
      rate <- CalculateRate rateSource baseCurrency fromCurrency toCurrency ;;
      infoFrom <- FindCurrency rateSource fromCurrency ;;
      infoTo <- FindCurrency rateSource toCurrency ;;
      let amountToDeduct :=
        RoundCeil (Add fromAmount fee) (int32 (Precision infoFrom)) in
      product <- lift (Mul fromAmount rate) ;;
      ret {| BaseCurrency := baseCurrency;
             FromCurrency := fromCurrency;
             FromAmount := fromAmount;
             Fee := fee;
             AmountToDeduct := amountToDeduct;
             Rate := rate;
             ToCurrency := toCurrency;
             FinalAmount := RoundCeil product (int32 (Precision infoTo));
             Date := now |}
  end.

(** *** Presence of a code in the registry *)

Definition matches (code : string) (cur : Currency) : bool :=
  EqualFold (ISOCode cur) code.

(** [cur] is the record the registry holds for [code]: the first one,
    in the registry's order, whose ISO code equals [code] up to case. *)
Inductive first_match (code : string) : list Currency -> Currency -> Prop :=
| first_match_here cur rest :
    matches code cur = true -> first_match code (cur :: rest) cur
| first_match_later other rest cur :
    matches code other = false -> first_match code rest cur ->
    first_match code (other :: rest) cur.

Definition present (c : Currencies) (code : string) (cur : Currency) : Prop :=
  first_match code (currencies c) cur.

Definition absent (c : Currencies) (code : string) : Prop :=
  Forall (fun cur => matches code cur = false) (currencies c).

(** The code as [CalculateRate] compares and looks it up: upper-cased,
    twice. *)
Definition upper (code : string) : string := ToUpper (ToUpper code).

End Registry.

End converter.

Import converter.

(** ** [encoding/json] on a source without elements *)

(** [NewCurrencies] takes [json.Marshal] and [json.Unmarshal] as they
    are.  What the two do with a slice that has no elements is fixed by the
    package and written out here; on a slice with elements, and on the text
    written for one, they stay parameters. *)
Module json.

(** The texts [json.Marshal] writes for a slice without elements: [null]
    for a nil slice, [[]] for an empty slice, and the empty string literal
    (two quotes, the base64 text of no bytes) for an empty [[]byte]. *)
Definition null : list Byte.byte := list_byte_of_string "null".
Definition emptyArray : list Byte.byte := list_byte_of_string "[]".
Definition emptyString : list Byte.byte := [Byte.x22; Byte.x22].

Fixpoint bytes_eqb (a b : list Byte.byte) : bool :=
  match a, b with
  | [], [] => true
  | x :: a', y :: b' => Byte.eqb x y && bytes_eqb a' b'
  | _, _ => false
  end.

(** The [UnmarshalTypeError] of a JSON string read into a [[]Currency]. *)
Definition stringIntoCurrencies : string :=
  "json: cannot unmarshal string into Go value of type []converter.Currency".

Section Slices.
(** The element type; whether the encoder takes [[]T] for a byte slice
    ([T] has kind [uint8] and no marshaler of its own), which it writes as
    a base64 string and not as an array; and the encoder on a slice that
    has elements. *)
Variable T : Type.
Variable byteSlice : bool.
Variable marshalElems : list T -> string + list Byte.byte.

(** [json.Marshal(sourceRates)]; a slice without elements is nil or
    not. *)
Definition Marshal (isNil : bool) (sourceRates : list T)
  : string + list Byte.byte :=
  match sourceRates with
  | [] => inr (if isNil then null
               else if byteSlice then emptyString else emptyArray)
  | _ :: _ => marshalElems sourceRates
  end.
End Slices.

Section Decoder.
(** The decoder into a [[]Currency] on every other text. *)
Variable unmarshalOther : list Byte.byte -> string + list Currency.

(** [json.Unmarshal(b, &currencies)], [currencies] a nil [[]Currency]:
    [null] leaves the slice nil, [[]] makes it empty, a string does not
    fit a slice of structs. *)
Definition Unmarshal (b : list Byte.byte) : string + list Currency :=
  if bytes_eqb b null then inr []
  else if bytes_eqb b emptyArray then inr []
  else if bytes_eqb b emptyString then inl stringIntoCurrencies
  else unmarshalOther b.
End Decoder.

End json.

(** ** The registries of the tests *)

Module testdata.
(** [TestCalculateRate] *)
Definition USD : Currency :=
  {| ISOCode := "USD"; Precision := 2; BuyRate := New 1 0; SellRate := New 1 0 |}.
Definition EUR : Currency :=
  {| ISOCode := "EUR"; Precision := 2;
     BuyRate := New 85 (-2); SellRate := New 118 (-2) |}.
Definition JPY : Currency :=
  {| ISOCode := "JPY"; Precision := 2;
     BuyRate := New 81 (-4); SellRate := New 12345 (-2) |}.
Definition rates : Currencies := {| currencies := [USD; EUR; JPY] |}.

(** A currency that is quoted without a buy rate. *)
Definition XTS : Currency :=
  {| ISOCode := "XTS"; Precision := 2; BuyRate := New 0 0; SellRate := New 2 0 |}.
Definition rates_zero : Currencies := {| currencies := [USD; XTS; JPY] |}.

(** [TestNewQuote_ValidInput] *)
Definition EUR95 : Currency :=
  {| ISOCode := "EUR"; Precision := 2;
     BuyRate := New 95 (-2); SellRate := New 95 (-2) |}.
Definition quote_rates : Currencies := {| currencies := [USD; EUR95] |}.
Definition quote_want (now : Time) : Quote :=
  {| BaseCurrency := "USD"; FromCurrency := "USD";
     FromAmount := New 100 0; Fee := New 5 0;
     AmountToDeduct := New 105 0;
     Rate := New 95 (-2);
     ToCurrency := "EUR";
     FinalAmount := New 9500 (-2);
     Date := now |}.

(** A precision that does not fit 32 bits. *)
Definition BIG : Currency :=
  {| ISOCode := "BIG"; Precision := 4294967298;
     BuyRate := New 1 0; SellRate := New 1 0 |}.
Definition rates_big : Currencies := {| currencies := [BIG] |}.
Definition quote_big (now : Time) : Quote :=
  {| BaseCurrency := "BIG"; FromCurrency := "BIG";
     FromAmount := New 1234 (-3); Fee := New 0 0;
     AmountToDeduct := New 124 (-2);
     Rate := New 1 0;
     ToCurrency := "BIG";
     FinalAmount := New 124 (-2);
     Date := now |}.
End testdata.

(** ** More registries *)

Module moredata.
Import testdata.

(** A second record under the code of [EUR], in lower case. *)
Definition eur_second : Currency :=
  {| ISOCode := "eur"; Precision := 0;
     BuyRate := New 9 (-1); SellRate := New 2 0 |}.
Definition rates_twice : Currencies := {| currencies := [USD; EUR; eur_second] |}.

(** A registry without records, as a struct literal gives it. *)
Definition rates_none : Currencies := {| currencies := [] |}.

(** A source whose encoding decodes to one [USD] per element. *)
Definition units_Marshal (l : list unit) : string + list Byte.byte :=
  inr (map (fun _ => Byte.x00) l).
Definition units_Unmarshal (b : list Byte.byte) : string + list Currency :=
  inr (map (fun _ => USD) b).
End moredata.

(** * Properties *)

(** ** Calls *)

Lemma bind_Ok {A B} (t : list event) (a : A) (k : A -> M B) :
  bind (t, Ok a) k = (t ++ trace (k a), outcome (k a)).
Proof. unfold bind, trace, outcome. destruct (k a); reflexivity. Qed.

Lemma bind_Err {A B} (t : list event) (e : error) (k : A -> M B) :
  bind (t, Err e) k = (t, Err e).
Proof. reflexivity. Qed.

Lemma bind_Panic {A B} (t : list event) (p : panic) (k : A -> M B) :
  bind (t, Panic p) k = (t, Panic p).
Proof. reflexivity. Qed.

Lemma bind_emit {B} (ev : event) (k : unit -> M B) :
  bind (emit ev) k = (ev :: trace (k tt), outcome (k tt)).
Proof. unfold emit. rewrite bind_Ok. reflexivity. Qed.

Lemma M_eta {A} (m : M A) : m = (trace m, outcome m).
Proof. destruct m; reflexivity. Qed.

Section RegistryFacts.
Context {go_strings : GoStrings}.

(** *** The search of [FindCurrency] *)

Lemma first_match_find code l cur :
  first_match code l cur <->
  find (fun x => EqualFold (ISOCode x) code) l = Some cur.
Proof.
  split.
  - induction 1 as [cur rest Hm | other rest cur Hm _ IH]; simpl.
    + unfold matches in Hm. rewrite Hm. reflexivity.
    + unfold matches in Hm. rewrite Hm. exact IH.
  - induction l as [| x l IH]; simpl; [discriminate |].
    destruct (EqualFold (ISOCode x) code) eqn:Hx.
    + intros [= ->]. constructor. exact Hx.
    + intros H. apply first_match_later; [exact Hx | auto].
Qed.

Lemma absent_find c code :
  absent c code <->
  find (fun x => EqualFold (ISOCode x) code) (currencies c) = None.
Proof.
  unfold absent. induction (currencies c) as [| x l IH]; simpl.
  - split; [reflexivity | constructor].
  - split.
    + intros H. inversion H as [| ? ? Hx Hl]; subst.
      unfold matches in Hx. rewrite Hx. apply IH, Hl.
    + destruct (EqualFold (ISOCode x) code) eqn:Hx; [discriminate |].
      intros H. constructor; [exact Hx | apply IH, H].
Qed.

Lemma first_match_inj code l cur cur' :
  first_match code l cur -> first_match code l cur' -> cur = cur'.
Proof.
  intros H H'. apply first_match_find in H, H'. congruence.
Qed.

Lemma first_match_nonempty code l cur : first_match code l cur -> l <> [].
Proof. destruct 1; discriminate. Qed.

Lemma first_match_In code l cur :
  first_match code l cur -> In cur l /\ matches code cur = true.
Proof.
  induction 1 as [cur rest Hm | other rest cur Hm _ [IH1 IH2]].
  - split; [left; reflexivity | exact Hm].
  - split; [right; exact IH1 | exact IH2].
Qed.

Lemma length_zero_iff {A} (l : list A) :
  (Z.of_nat (List.length l) =? 0) = true <-> l = [].
Proof.
  destruct l; simpl; split; try reflexivity; discriminate.
Qed.

Lemma FindCurrency_present c code cur :
  present c code cur ->
  FindCurrency c code = ([EvFindCurrency code], Ok cur).
Proof.
  intros H. unfold FindCurrency. rewrite bind_emit.
  destruct (Z.of_nat (List.length (currencies c)) =? 0) eqn:Hlen.
  - apply length_zero_iff in Hlen.
    exfalso. exact (first_match_nonempty _ _ _ H Hlen).
  - apply first_match_find in H. rewrite H. reflexivity.
Qed.

Lemma FindCurrency_Ok c code t cur :
  FindCurrency c code = (t, Ok cur) -> present c code cur.
Proof.
  unfold FindCurrency. rewrite bind_emit.
  destruct (Z.of_nat (List.length (currencies c)) =? 0); [discriminate |].
  destruct (find _ _) eqn:Hf; [| discriminate].
  intros [= _ ->]. apply first_match_find, Hf.
Qed.

Lemma FindCurrency_absent c code :
  absent c code ->
  FindCurrency c code =
    ([EvFindCurrency code],
     Err (if Z.of_nat (List.length (currencies c)) =? 0
          then ErrEmptyCurrencySource else ErrCurrencyNotFound code)).
Proof.
  intros H. unfold FindCurrency. rewrite bind_emit.
  destruct (Z.of_nat (List.length (currencies c)) =? 0); [reflexivity |].
  apply absent_find in H. rewrite H. reflexivity.
Qed.

Lemma FindCurrency_trace c code :
  trace (FindCurrency c code) = [EvFindCurrency code].
Proof.
  unfold FindCurrency. rewrite bind_emit.
  destruct (Z.of_nat (List.length (currencies c)) =? 0); [reflexivity |].
  destruct (find _ _); reflexivity.
Qed.

Lemma FindCurrency_no_panic c code p :
  outcome (FindCurrency c code) <> Panic p.
Proof.
  unfold FindCurrency. rewrite bind_emit.
  destruct (Z.of_nat (List.length (currencies c)) =? 0); [discriminate |].
  destruct (find _ _); discriminate.
Qed.

Lemma present_or_absent c code :
  (exists cur, present c code cur) \/ absent c code.
Proof.
  destruct (find (fun x => EqualFold (ISOCode x) code) (currencies c)) eqn:Hf.
  - left. exists c0. apply first_match_find, Hf.
  - right. apply absent_find, Hf.
Qed.

(** *** CalculateRate, branch by branch *)

Lemma CalculateRate_same c b f t :
  upper f = upper t ->
  CalculateRate c b f t = ([EvCalculateRate b f t], Ok (NewFromInt 1)).
Proof.
  unfold upper. intros H. unfold CalculateRate. rewrite bind_emit.
  rewrite H, String.eqb_refl. reflexivity.
Qed.

Lemma CalculateRate_no_base c b f t :
  upper f <> upper t -> absent c (upper b) ->
  CalculateRate c b f t =
    ([EvCalculateRate b f t; EvFindCurrency (upper b)],
     Err ErrBaseCurrencyNotFound).
Proof.
  unfold upper. intros Hft Hb. unfold CalculateRate. rewrite bind_emit.
  apply String.eqb_neq in Hft. rewrite Hft.
  rewrite (FindCurrency_absent _ _ Hb). reflexivity.
Qed.

Lemma CalculateRate_from_base c b t recB recT :
  present c (upper b) recB -> present c (upper t) recT ->
  upper t <> upper b ->
  CalculateRate c b b t =
    ([EvCalculateRate b b t; EvFindCurrency (upper b);
      EvFindCurrency (upper t)],
     Ok (SellRate recT)).
Proof.
  unfold upper. intros Hb Ht Hne. unfold CalculateRate. rewrite bind_emit.
  assert (Hbt : String.eqb (ToUpper (ToUpper b)) (ToUpper (ToUpper t)) = false)
    by (apply String.eqb_neq; congruence).
  rewrite Hbt, (FindCurrency_present _ _ _ Hb). unfold orFail.
  rewrite bind_Ok, String.eqb_refl, (FindCurrency_present _ _ _ Ht).
  reflexivity.
Qed.

Lemma CalculateRate_to_base c b f recB recF :
  present c (upper b) recB -> present c (upper f) recF ->
  upper f <> upper b ->
  CalculateRate c b f b =
    ([EvCalculateRate b f b; EvFindCurrency (upper b);
      EvFindCurrency (upper f)],
     match Div (NewFromInt 1) (BuyRate recF) with
     | Returns q => Ok q
     | Panics p => Panic p
     end).
Proof.
  unfold upper. intros Hb Hf Hne. unfold CalculateRate. rewrite bind_emit.
  apply String.eqb_neq in Hne. rewrite Hne.
  rewrite (FindCurrency_present _ _ _ Hb). unfold orFail.
  rewrite bind_Ok, String.eqb_refl, (FindCurrency_present _ _ _ Hf).
  rewrite bind_Ok. destruct (Div _ _); reflexivity.
Qed.

Lemma CalculateRate_cross c b f t recB recF recT :
  present c (upper b) recB ->
  present c (upper f) recF -> present c (upper t) recT ->
  upper f <> upper b -> upper t <> upper b -> upper f <> upper t ->
  CalculateRate c b f t =
    ([EvCalculateRate b f t; EvFindCurrency (upper b);
      EvFindCurrency (upper f); EvFindCurrency (upper t)],
     match Div (NewFromInt 1) (BuyRate recF) with
     | Returns q =>
         match Mul q (SellRate recT) with
         | Returns r => Ok r
         | Panics p => Panic p
         end
     | Panics p => Panic p
     end).
Proof.
  unfold upper. intros Hb Hf Ht Hfb Htb Hft.
  unfold CalculateRate. rewrite bind_emit.
  apply String.eqb_neq in Hfb, Htb, Hft. rewrite Hft.
  rewrite (FindCurrency_present _ _ _ Hb). unfold orFail.
  rewrite bind_Ok, Hfb, Htb, (FindCurrency_present _ _ _ Hf).
  rewrite bind_Ok, (FindCurrency_present _ _ _ Ht), bind_Ok.
  destruct (Div _ _) as [q |]; [| reflexivity].
  simpl. destruct (Mul _ _); reflexivity.
Qed.

End RegistryFacts.

(** ** Decimals *)

Section DecimalFacts.

Lemma int32_id x : in_int32 x -> int32 x = x.
Proof.
  unfold in_int32, MinInt32, MaxInt32, int32. intros H.
  rewrite Z.mod_small; lia.
Qed.

Lemma int32_neg x : in_int32 x -> x <> MinInt32 -> int32 (- x) = - x.
Proof.
  unfold in_int32, MinInt32, MaxInt32. intros H Hne.
  apply int32_id. unfold in_int32, MinInt32, MaxInt32. lia.
Qed.

Lemma int32_range x : in_int32 (int32 x).
Proof.
  unfold in_int32, MinInt32, MaxInt32, int32.
  pose proof (Z.mod_pos_bound (x + 2147483648) 4294967296 eq_refl). lia.
Qed.

(** *** Powers of ten *)

Lemma pow10_pos e : (0 < (10 # 1) ^ e)%Q.
Proof. apply Qpower_0_lt. reflexivity. Qed.

Lemma pow10_split a b :
  a <= b -> ((10 # 1) ^ b == inject_Z (10 ^ (b - a)) * (10 # 1) ^ a)%Q.
Proof.
  intros H. rewrite Zpower_Qpower by lia.
  change (inject_Z 10) with (10 # 1)%Q.
  rewrite <- Qpower_plus by discriminate.
  replace (b - a + a) with b by lia. reflexivity.
Qed.

Lemma pow10_Zpos k : 0 <= k -> 0 < 10 ^ k.
Proof. intros H. apply Z.pow_pos_nonneg; lia. Qed.

(** [to_Q] at a lower exponent. *)
Lemma to_Q_scaled v a b :
  a <= b -> (to_Q (New v b) == to_Q (New (v * 10 ^ (b - a)) a))%Q.
Proof.
  intros H. unfold to_Q; simpl. rewrite (pow10_split a b H).
  rewrite inject_Z_mult. ring.
Qed.

Lemma to_Q_le v w e : v <= w <-> (to_Q (New v e) <= to_Q (New w e))%Q.
Proof.
  unfold to_Q; simpl. rewrite Qmult_le_r by apply pow10_pos.
  rewrite <- Zle_Qle. reflexivity.
Qed.

(** *** Exact operations *)

Lemma rescale_exact d e : e <= exp d -> (to_Q (rescale d e) == to_Q d)%Q.
Proof.
  intros H. unfold rescale.
  destruct (Z.eqb_spec (exp d) e) as [_ | Hne]; [reflexivity |].
  destruct (Z.ltb_spec (exp d) e) as [Hlt | _]; [lia |].
  replace (Z.abs (e - exp d)) with (exp d - e) by lia.
  destruct d as [v x]; simpl in *. symmetry. apply to_Q_scaled, H.
Qed.

Lemma rescale_exp d e : exp (rescale d e) = e.
Proof.
  unfold rescale. destruct (Z.eqb_spec (exp d) e); [assumption |].
  destruct (exp d <? e); reflexivity.
Qed.

Lemma to_Q_plus v w e :
  (to_Q (New (v + w) e) == to_Q (New v e) + to_Q (New w e))%Q.
Proof. unfold to_Q; simpl. rewrite inject_Z_plus. ring. Qed.

Lemma to_Q_eta d : to_Q d = to_Q (New (value d) (exp d)).
Proof. destruct d; reflexivity. Qed.

Lemma Add_exact d d2 : (to_Q (Add d d2) == to_Q d + to_Q d2)%Q.
Proof.
  unfold Add, RescalePair.
  destruct (Z.ltb_spec (exp d) (exp d2)) as [H | H].
  - rewrite to_Q_plus, <- to_Q_eta.
    rewrite <- (rescale_exact d2 (exp d)) by lia.
    rewrite (to_Q_eta (rescale d2 (exp d))), rescale_exp. reflexivity.
  - destruct (Z.ltb_spec (exp d2) (exp d)) as [H' | H'].
    + rewrite to_Q_plus, rescale_exp.
      rewrite <- (rescale_exact d (exp d2)) by lia.
      rewrite (to_Q_eta (rescale d (exp d2))), rescale_exp.
      rewrite <- (to_Q_eta d2). reflexivity.
    + rewrite to_Q_plus, <- to_Q_eta.
      replace (exp d) with (exp d2) by lia.
      rewrite <- to_Q_eta. reflexivity.
Qed.

Lemma Mul_returns d d2 :
  in_int32 (exp d + exp d2) ->
  Mul d d2 = Returns (New (value d * value d2) (exp d + exp d2)).
Proof.
  unfold in_int32, Mul. intros H.
  destruct (Z.ltb_spec MaxInt32 (exp d + exp d2)); [lia |].
  destruct (Z.ltb_spec (exp d + exp d2) MinInt32); [lia |]. reflexivity.
Qed.

Lemma Mul_exact d d2 r :
  Mul d d2 = Returns r -> (to_Q r == to_Q d * to_Q d2)%Q.
Proof.
  unfold Mul. destruct (_ || _); [discriminate |].
  intros [= <-]. unfold to_Q; simpl.
  rewrite inject_Z_mult, Qpower_plus by discriminate. ring.
Qed.

(** *** Division *)

Lemma Div_zero d d2 : value d2 = 0 -> Div d d2 = Panics PanicDivisionByZero.
Proof.
  intros H. unfold Div, DivRound, QuoRem. rewrite H. reflexivity.
Qed.

Lemma Div_returns d d2 :
  value d2 <> 0 -> in_int32 (exp d - exp d2 + DivisionPrecision) ->
  exists q, Div d d2 = Returns q /\ exp q = - DivisionPrecision.
Proof.
  intros Hnz He. unfold Div, DivRound, QuoRem.
  change (int32 DivisionPrecision) with 16.
  change (int32 (Z.opp 16)) with (-16). change DivisionPrecision with 16 in *.
  destruct (Z.eqb_spec (Z.sgn (value d2)) 0) as [H0 | _].
  { apply -> Z.sgn_null_iff in H0. exfalso. exact (Hnz H0). }
  replace (exp d - exp d2 - -16) with (exp d - exp d2 + 16) by lia.
  unfold in_int32 in He.
  destruct (Z.ltb_spec MaxInt32 (exp d - exp d2 + 16)); [lia |].
  destruct (Z.ltb_spec (exp d - exp d2 + 16) MinInt32); [lia |].
  simpl orb. cbv iota.
  destruct (exp d - exp d2 + 16 <? 0); cbv beta iota zeta;
    (destruct (Cmp _ _ <? 0); [eexists; split; reflexivity |]);
    (destruct (Z.sgn (value d) * Z.sgn (value d2) <? 0);
      eexists; (split; [reflexivity |]); unfold Sub, Add, RescalePair; simpl;
      reflexivity).
Qed.

(** *** Rounding up *)

(** Truncating division, corrected upwards, is the ceiling. *)
Lemma quot_ceil v m :
  0 < m ->
  let q := Z.quot v m in
  let c := if v =? q * m then q else if 0 <? Z.sgn v then q + 1 else q in
  v <= c * m /\ forall j, v <= j * m -> c <= j.
Proof.
  intros Hm q c. subst c q.
  pose proof (Z.quot_rem' v m) as Hqr.
  destruct (Z.eqb_spec v (Z.quot v m * m)) as [He | Hne].
  - split; [lia | intros j Hj; nia].
  - destruct (Z.ltb_spec 0 (Z.sgn v)) as [Hs | Hs].
    + assert (0 < v) by (apply Z.sgn_pos_iff; lia).
      pose proof (Z.rem_bound_pos v m ltac:(lia) Hm).
      split; [nia | intros j Hj; nia].
    + assert (v <= 0).
      { destruct (Z.sgn_spec v) as [[? ?] | [[? ?] | [? ?]]]; lia. }
      pose proof (Z.rem_bound_pos_neg v m Hm ltac:(lia)).
      split; [nia | intros j Hj; nia].
Qed.

Lemma multiple_of_pow10 d places :
  - places <= exp d ->
  exists k : Z, (to_Q d == inject_Z k * (10 # 1) ^ (- places))%Q.
Proof.
  intros H. exists (value d * 10 ^ (exp d - - places)).
  rewrite to_Q_eta, (to_Q_scaled _ (- places) (exp d) H). reflexivity.
Qed.

Lemma is_ceil_at_result x places r r' :
  (to_Q r == to_Q r')%Q -> is_ceil_at x places r -> is_ceil_at x places r'.
Proof.
  intros E (Hup & [k Hk] & Hleast). split; [| split].
  - rewrite <- E. exact Hup.
  - exists k. rewrite <- E. exact Hk.
  - intros j Hj. rewrite <- E. apply Hleast, Hj.
Qed.

Lemma RoundCeil_is_ceil d places :
  in_int32 places -> places <> MinInt32 ->
  is_ceil_at (to_Q d) places (RoundCeil d places).
Proof.
  intros Hr Hne. unfold RoundCeil. rewrite (int32_neg _ Hr Hne).
  destruct (Z.leb_spec (- places) (exp d)) as [Hle | Hlt].
  - split; [apply Qle_refl |].
    split; [apply multiple_of_pow10, Hle | intros k Hk; exact Hk].
  - set (k := - places - exp d).
    assert (Hk : 0 < k) by (unfold k; lia).
    pose proof (pow10_Zpos k ltac:(lia)) as Hm.
    set (q0 := Z.quot (value d) (10 ^ k)).
    assert (Hresc : rescale d (- places) = New q0 (- places)).
    { unfold rescale.
      destruct (Z.eqb_spec (exp d) (- places)); [lia |].
      destruct (Z.ltb_spec (exp d) (- places)); [| lia].
      replace (Z.abs (- places - exp d)) with k by (unfold k; lia).
      reflexivity. }
    pose proof (quot_ceil (value d) (10 ^ k) Hm) as Hceil. cbv zeta in Hceil.
    fold q0 in Hceil. clearbody q0.
    assert (Hequal : Equal d (rescale d (- places))
                     = (value d =? q0 * 10 ^ k)).
    { rewrite Hresc. unfold Equal, Cmp, RescalePair; cbn [value exp].
      destruct (Z.eqb_spec (exp d) (- places)); [lia |].
      destruct (Z.ltb_spec (exp d) (- places)); [| lia].
      unfold rescale; cbn [value exp].
      destruct (Z.eqb_spec (- places) (exp d)); [lia |].
      destruct (Z.ltb_spec (- places) (exp d)); [lia |].
      replace (Z.abs (exp d - - places)) with k by (unfold k; lia).
      unfold bigCmp. cbn [value].
      destruct (Z.compare_spec (value d) (q0 * 10 ^ k));
        destruct (Z.eqb_spec (value d) (q0 * 10 ^ k)); try reflexivity; lia. }
    set (c := if value d =? q0 * 10 ^ k then q0
              else if 0 <? Z.sgn (value d) then q0 + 1 else q0) in *.
    destruct Hceil as [Hup Hleast].
    assert (Hd : (to_Q d == to_Q (New (value d) (exp d)))%Q)
      by (rewrite <- to_Q_eta; reflexivity).
    assert (Hsc : forall j, (to_Q (New j (- places))
                             == to_Q (New (j * 10 ^ k) (exp d)))%Q).
    { intros j. rewrite (to_Q_scaled j (exp d) (- places)) by lia.
      reflexivity. }
    assert (Hc : is_ceil_at (to_Q d) places (New c (- places))).
    { split; [| split].
      - rewrite Hd, Hsc. apply to_Q_le, Hup.
      - exists c. reflexivity.
      - intros j Hj.
        change (inject_Z j * (10 # 1) ^ (- places))%Q
          with (to_Q (New j (- places))) in *.
        rewrite Hd, Hsc in Hj. apply to_Q_le in Hj.
        apply to_Q_le. apply Hleast, Hj. }
    rewrite Hequal, Hresc. cbn [value exp]. subst c.
    destruct (Z.eqb_spec (value d) (q0 * 10 ^ k)) as [He | _].
    + apply (is_ceil_at_result _ _ (New q0 (- places))); [| exact Hc].
      rewrite Hsc, <- He, <- to_Q_eta. reflexivity.
    + destruct (0 <? Z.sgn (value d)); exact Hc.
Qed.

(** Rounding up at more digits than a decimal has leaves its value. *)
Lemma is_ceil_at_fine x places d r :
  (x == to_Q d)%Q -> - places <= exp d ->
  is_ceil_at x places r -> (to_Q r == to_Q d)%Q.
Proof.
  intros Hx Hle (Hup & _ & Hleast).
  destruct (multiple_of_pow10 d places Hle) as [k Hk].
  apply Qle_antisym.
  - rewrite Hk. apply Hleast. rewrite Hx, Hk. apply Qle_refl.
  - rewrite <- Hx. exact Hup.
Qed.

End DecimalFacts.

(** ** Division *)

Section DivisionFacts.

Lemma round_half_away aa bb :
  bb <> 0 ->
  let q0 := Z.quot aa bb in
  let rem := Z.rem aa bb in
  let res := if Z.abs rem * 2 <? Z.abs bb then q0
             else if Z.sgn aa * Z.sgn bb <? 0 then q0 - 1 else q0 + 1 in
  2 * Z.abs (aa - res * bb) <= Z.abs bb.
Proof.
  intros Hb q0 rem res. subst res q0 rem.
  pose proof (Z.quot_rem' aa bb) as Hqr.
  pose proof (Z.rem_bound_abs aa bb Hb) as Hbound.
  pose proof (Z.rem_sign_mul aa bb Hb) as Hsign.
  destruct (Z.ltb_spec (Z.abs (Z.rem aa bb) * 2) (Z.abs bb)) as [H | H].
  - replace (aa - Z.quot aa bb * bb) with (Z.rem aa bb) by lia. lia.
  - destruct (Z.ltb_spec (Z.sgn aa * Z.sgn bb) 0) as [Hs | Hs].
    + replace (aa - (Z.quot aa bb - 1) * bb) with (Z.rem aa bb + bb) by lia.
      destruct (Z.sgn_spec aa) as [[? Ha] | [[? Ha] | [? Ha]]],
               (Z.sgn_spec bb) as [[? Hbb] | [[? Hbb] | [? Hbb]]];
        rewrite Ha, Hbb in Hs; try lia; nia.
    + replace (aa - (Z.quot aa bb + 1) * bb) with (Z.rem aa bb - bb) by lia.
      destruct (Z.sgn_spec aa) as [[? Ha] | [[? Ha] | [? Ha]]],
               (Z.sgn_spec bb) as [[? Hbb] | [[? Hbb] | [? Hbb]]];
        rewrite Ha, Hbb in Hs; try lia; try nia;
        subst aa; rewrite Z.rem_0_l in H by assumption; simpl in H; lia.
Qed.

Lemma bigCmp_ltb x y : (bigCmp x y <? 0) = (x <? y).
Proof.
  unfold bigCmp. destruct (Z.compare_spec x y);
    destruct (Z.ltb_spec x y); try reflexivity; lia.
Qed.

Lemma int32_add_l x y : int32 (int32 x + y) = int32 (x + y).
Proof.
  unfold int32. f_equal.
  replace ((x + 2147483648) mod 4294967296 - 2147483648 + y + 2147483648)
    with ((x + 2147483648) mod 4294967296 + y) by lia.
  rewrite Z.add_mod_idemp_l by discriminate. f_equal. lia.
Qed.

Lemma sgn_scaled v k : 0 <= k -> Z.sgn (v * 10 ^ k) = Z.sgn v.
Proof.
  intros H. rewrite Z.sgn_mul.
  rewrite (proj2 (Z.sgn_pos_iff (10 ^ k)) (pow10_Zpos k H)). lia.
Qed.

Lemma abs_scaled v k : 0 <= k -> Z.abs (v * 10 ^ k) = Z.abs v * 10 ^ k.
Proof.
  intros H. rewrite Z.abs_mul. f_equal. apply Z.abs_eq.
  pose proof (pow10_Zpos k H). lia.
Qed.

(** What [Div] computes, with the scaled integers of [QuoRem]: the
    quotient of [aa] by [bb] in units of [10 ^ -16], at most half a unit
    off. *)
Lemma Div_scaled d d2 q :
  in_int32 (exp d) -> in_int32 (exp d2) ->
  Div d d2 = Returns q ->
  exists aa bb : Z, exists X : Q,
    bb <> 0 /\ (0 < X)%Q /\
    (to_Q d == inject_Z aa * X)%Q /\
    (to_Q d2 == inject_Z bb * X * (10 # 1) ^ 16)%Q /\
    exp q = -16 /\
    2 * Z.abs (aa - value q * bb) <= Z.abs bb.
Proof.
  intros Hd Hd2. unfold Div, DivRound, QuoRem.
  change (int32 DivisionPrecision) with 16.
  change (int32 (Z.opp 16)) with (-16).
  destruct (Z.eqb_spec (Z.sgn (value d2)) 0) as [_ | Hnz]; [discriminate |].
  assert (Hv2 : value d2 <> 0) by (intros H0; rewrite H0 in Hnz; auto).
  replace (exp d - exp d2 - -16) with (exp d - exp d2 + 16) by lia.
  destruct (Z.ltb_spec MaxInt32 (exp d - exp d2 + 16)); [discriminate |].
  destruct (Z.ltb_spec (exp d - exp d2 + 16) MinInt32); [discriminate |].
  simpl orb. cbv iota.
  destruct (Z.ltb_spec (exp d - exp d2 + 16) 0) as [He | He];
    cbv beta iota zeta.
  - (* e < 0 *)
    set (k := - (exp d - exp d2 + 16)).
    assert (Hk : 0 < k) by (unfold k; lia).
    set (aa := value d). set (bb := value d2 * 10 ^ k).
    assert (Hbb : bb <> 0).
    { unfold bb. pose proof (pow10_Zpos k ltac:(lia)). nia. }
    pose proof (round_half_away aa bb Hbb) as Hround. cbv zeta in Hround.
    assert (Hcmp :
      (Cmp (New (Z.abs (Z.rem aa bb) * 2) (int32 (exp d + 16))) (Abs d2) <? 0)
      = (Z.abs (Z.rem aa bb) * 2 <? Z.abs bb)).
    { rewrite int32_id by (unfold in_int32, MinInt32, MaxInt32 in *; lia).
      unfold Cmp, Abs, RescalePair; cbn [value exp].
      destruct (Z.eqb_spec (exp d + 16) (exp d2)); [lia |].
      destruct (Z.ltb_spec (exp d + 16) (exp d2)); [| lia].
      unfold rescale; cbn [value exp].
      destruct (Z.eqb_spec (exp d2) (exp d + 16)); [lia |].
      destruct (Z.ltb_spec (exp d2) (exp d + 16)); [lia |].
      replace (Z.abs (exp d + 16 - exp d2)) with k by (unfold k; lia).
      rewrite bigCmp_ltb. unfold bb. rewrite abs_scaled by lia.
      reflexivity. }
    cbn [value exp]. rewrite Hcmp.
    assert (Hsg : Z.sgn bb = Z.sgn (value d2))
      by (unfold bb; apply sgn_scaled; lia).
    rewrite <- Hsg.
    intros Hq. exists aa, bb, ((10 # 1) ^ exp d)%Q.
    split; [exact Hbb |]. split; [apply pow10_pos |].
    split; [rewrite to_Q_eta; reflexivity |].
    split.
    { rewrite to_Q_eta. unfold to_Q, bb; simpl.
      rewrite (pow10_split (exp d + 16) (exp d2)) by lia.
      replace (exp d2 - (exp d + 16)) with k by (unfold k; lia).
      rewrite Qpower_plus by discriminate.
      rewrite inject_Z_mult. ring. }
    destruct (Z.abs (Z.rem aa bb) * 2 <? Z.abs bb).
    + injection Hq as <-. split; [reflexivity | exact Hround].
    + destruct (Z.sgn aa * Z.sgn bb <? 0); injection Hq as <-;
        (split; [reflexivity | exact Hround]).
  - (* 0 <= e *)
    set (k := exp d - exp d2 + 16) in *.
    set (aa := value d * 10 ^ k). set (bb := value d2).
    pose proof (round_half_away aa bb Hv2) as Hround. cbv zeta in Hround.
    assert (Hcmp :
      (Cmp (New (Z.abs (Z.rem aa bb) * 2)
                (int32 (int32 (-16 + exp d2) + 16))) (Abs d2) <? 0)
      = (Z.abs (Z.rem aa bb) * 2 <? Z.abs bb)).
    { rewrite int32_add_l.
      replace (-16 + exp d2 + 16) with (exp d2) by lia.
      rewrite int32_id by assumption.
      unfold Cmp, Abs; cbn [value exp]. rewrite Z.eqb_refl, bigCmp_ltb.
      reflexivity. }
    cbn [value exp]. rewrite Hcmp.
    assert (Hsg : Z.sgn aa = Z.sgn (value d))
      by (unfold aa; apply sgn_scaled; lia).
    rewrite <- Hsg.
    intros Hq. exists aa, bb, ((10 # 1) ^ (exp d2 - 16))%Q.
    split; [exact Hv2 |]. split; [apply pow10_pos |].
    split.
    { rewrite to_Q_eta. unfold to_Q, aa; simpl.
      rewrite (pow10_split (exp d2 - 16) (exp d)) by lia.
      replace (exp d - (exp d2 - 16)) with k by (unfold k; lia).
      rewrite inject_Z_mult. ring. }
    split.
    { rewrite to_Q_eta. unfold to_Q, bb; simpl.
      replace (exp d2) with ((exp d2 - 16) + 16) at 1 by lia.
      rewrite Qpower_plus by discriminate. ring. }
    destruct (Z.abs (Z.rem aa bb) * 2 <? Z.abs bb).
    + injection Hq as <-. split; [reflexivity | exact Hround].
    + destruct (Z.sgn aa * Z.sgn bb <? 0); injection Hq as <-;
        (split; [reflexivity | exact Hround]).
Qed.

(** [Div] is the quotient rounded at 16 decimal digits: a multiple of
    [10 ^ -16] at most half a unit away from the exact quotient. *)
Lemma Div_rounds d d2 q :
  in_int32 (exp d) -> in_int32 (exp d2) ->
  Div d d2 = Returns q ->
  exp q = -16 /\
  (Qabs (to_Q q - to_Q d / to_Q d2) <= (1 # 2) * (10 # 1) ^ (-16))%Q.
Proof.
  intros Hd Hd2 Hq.
  destruct (Div_scaled d d2 q Hd Hd2 Hq)
    as (aa & bb & X & Hbb & HX & HD & HD2 & Hexp & Hround).
  split; [exact Hexp |].
  set (u := ((10 # 1) ^ (-16))%Q).
  assert (Hu : (0 < u)%Q) by apply pow10_pos.
  assert (Huw : (u == / (10 # 1) ^ 16)%Q) by reflexivity.
  assert (Hbq : ~ (inject_Z bb == 0)%Q).
  { change 0%Q with (inject_Z 0). rewrite inject_Z_injective. exact Hbb. }
  assert (HXq : ~ (X == 0)%Q).
  { intros E. rewrite E in HX. discriminate. }
  assert (Hwq : ~ ((10 # 1) ^ 16 == 0)%Q) by discriminate.
  assert (E : (to_Q q - to_Q d / to_Q d2
               == inject_Z (value q * bb - aa) / inject_Z bb * u)%Q).
  { rewrite HD, HD2, (to_Q_eta q), Hexp. unfold to_Q; cbn [value exp].
    fold u. unfold Zminus. rewrite inject_Z_plus, inject_Z_mult, inject_Z_opp.
    rewrite Huw. generalize ((10 # 1) ^ 16)%Q Hwq. intros w Hw.
    field. repeat split; assumption. }
  rewrite E. unfold Qdiv. rewrite !Qabs_Qmult, Qabs_Qinv.
  rewrite (Qabs_pos u) by (apply Qlt_le_weak, Hu).
  apply Qmult_le_compat_r; [| apply Qlt_le_weak, Hu].
  change (Qabs (inject_Z (value q * bb - aa)))
    with (inject_Z (Z.abs (value q * bb - aa))).
  change (Qabs (inject_Z bb)) with (inject_Z (Z.abs bb)).
  apply Qle_shift_div_r.
  - change 0%Q with (inject_Z 0). rewrite <- Zlt_Qlt. lia.
  - unfold Qle, Qmult, inject_Z; cbn [Qnum Qden]. lia.
Qed.

End DivisionFacts.

(** ** ASCII case folding *)

Section AsciiFacts.

Lemma all_bytes_complete a : In a ASCII.all_bytes.
Proof.
  unfold ASCII.all_bytes. rewrite <- (ascii_nat_embedding a).
  apply in_map, in_seq. pose proof (nat_ascii_bounded a). lia.
Qed.

Lemma forall_bytes2 (P : ascii -> ascii -> bool) :
  forallb (fun a => forallb (P a) ASCII.all_bytes) ASCII.all_bytes = true ->
  forall a b, P a b = true.
Proof.
  intros H a b. rewrite forallb_forall in H.
  specialize (H a (all_bytes_complete a)). rewrite forallb_forall in H.
  exact (H b (all_bytes_complete b)).
Qed.

(** The loop step of [EqualFold] compares bytes up to their case. *)
Lemma foldEq_upperByte a b :
  ASCII.foldEq a b = Ascii.eqb (ASCII.upperByte a) (ASCII.upperByte b).
Proof.
  apply eqb_prop.
  apply (forall_bytes2
           (fun a b => Bool.eqb (ASCII.foldEq a b)
                         (Ascii.eqb (ASCII.upperByte a) (ASCII.upperByte b)))).
  vm_compute. reflexivity.
Qed.

Lemma upperByte_idem a : ASCII.upperByte (ASCII.upperByte a) = ASCII.upperByte a.
Proof.
  apply Ascii.eqb_eq.
  apply (forall_bytes2
           (fun a _ => Ascii.eqb (ASCII.upperByte (ASCII.upperByte a))
                         (ASCII.upperByte a))); [| exact a].
  vm_compute. reflexivity.
Qed.

Lemma ASCII_EqualFold_ToUpper s t :
  ASCII.EqualFold s t = String.eqb (ASCII.ToUpper s) (ASCII.ToUpper t).
Proof.
  revert t. induction s as [| a s IH]; intros [| b t]; simpl; try reflexivity.
  rewrite foldEq_upperByte, IH.
  destruct (Ascii.eqb _ _); reflexivity.
Qed.

Lemma ASCII_ToUpper_idem s : ASCII.ToUpper (ASCII.ToUpper s) = ASCII.ToUpper s.
Proof.
  induction s as [| a s IH]; simpl; [reflexivity |].
  rewrite upperByte_idem, IH. reflexivity.
Qed.

Lemma ASCII_EqualFold_sym s t : ASCII.EqualFold s t = ASCII.EqualFold t s.
Proof. rewrite !ASCII_EqualFold_ToUpper. apply String.eqb_sym. Qed.

Lemma ASCII_EqualFold_trans s t u :
  ASCII.EqualFold s t = true -> ASCII.EqualFold t u = true ->
  ASCII.EqualFold s u = true.
Proof.
  rewrite !ASCII_EqualFold_ToUpper, !String.eqb_eq. congruence.
Qed.

(** On ASCII text a lookup does not see the upper-casing of its code. *)
Lemma ASCII_EqualFold_upper s code :
  ASCII.EqualFold s (ASCII.ToUpper (ASCII.ToUpper code)) = ASCII.EqualFold s code.
Proof. rewrite !ASCII_EqualFold_ToUpper, !ASCII_ToUpper_idem. reflexivity. Qed.

End AsciiFacts.

(** ** The registry *)

Section Lookup.
Context {go_strings : GoStrings}.

(** Codes that [EqualFold] identifies are looked up alike, as soon as
    [EqualFold] is symmetric and transitive. *)
Lemma EqualFold_congr
    (Hsym : forall s t, EqualFold s t = EqualFold t s)
    (Htrans : forall s t u, EqualFold s t = true -> EqualFold t u = true ->
                            EqualFold s u = true)
    c1 c2 :
  EqualFold c1 c2 = true -> forall s, EqualFold s c1 = EqualFold s c2.
Proof.
  intros H s.
  destruct (EqualFold s c1) eqn:H1, (EqualFold s c2) eqn:H2; try reflexivity.
  - rewrite (Htrans s c1 c2 H1 H) in H2. discriminate.
  - rewrite Hsym in H. rewrite (Htrans s c2 c1 H2 H) in H1. discriminate.
Qed.

Lemma FindCurrency_fold_equal c c1 c2 :
  (forall s, EqualFold s c1 = EqualFold s c2) ->
  currencies c <> [] ->
  (exists cur, present c c1 cur /\ present c c2 cur /\
               outcome (FindCurrency c c1) = Ok cur /\
               outcome (FindCurrency c c2) = Ok cur) \/
  (absent c c1 /\ absent c c2 /\
   outcome (FindCurrency c c1) = Err (ErrCurrencyNotFound c1) /\
   outcome (FindCurrency c c2) = Err (ErrCurrencyNotFound c2)).
Proof.
  intros Heq Hne.
  assert (Hfind : find (fun x => EqualFold (ISOCode x) c1) (currencies c)
                  = find (fun x => EqualFold (ISOCode x) c2) (currencies c)).
  { induction (currencies c) as [| x l IH]; simpl; [reflexivity |].
    rewrite Heq. destruct (EqualFold (ISOCode x) c2); [reflexivity |].
    destruct l; [reflexivity | apply IH; discriminate]. }
  assert (Hlen : (Z.of_nat (List.length (currencies c)) =? 0) = false).
  { destruct (currencies c); [contradiction | reflexivity]. }
  destruct (present_or_absent c c1) as [[cur H1] | H1].
  - left. exists cur.
    assert (H2 : present c c2 cur).
    { apply first_match_find. rewrite <- Hfind. apply first_match_find, H1. }
    rewrite (FindCurrency_present _ _ _ H1), (FindCurrency_present _ _ _ H2).
    repeat split; assumption.
  - right.
    assert (H2 : absent c c2).
    { apply absent_find. rewrite <- Hfind. apply absent_find, H1. }
    rewrite (FindCurrency_absent _ _ H1), (FindCurrency_absent _ _ H2), Hlen.
    repeat split; assumption.
Qed.

End Lookup.

(** ** Quotes *)

Section QuoteFacts.
Context {go_strings : GoStrings}.

Lemma bind_Ok_inv {A B} (m : M A) (k : A -> M B) t b :
  bind m k = (t, Ok b) ->
  exists t1 a t2, m = (t1, Ok a) /\ k a = (t2, Ok b) /\ t = t1 ++ t2.
Proof.
  destruct m as [t1 [a | e | p]]; simpl; try discriminate.
  destruct (k a) as [t2 r] eqn:Hk. intros [= <- ->].
  exists t1, a, t2. repeat split; assumption.
Qed.

Lemma lift_Ok_inv {A} (c : call A) t a : lift c = (t, Ok a) -> c = Returns a.
Proof. destruct c; simpl; [intros [= _ ->]; reflexivity | discriminate]. Qed.

Lemma is_ceil_at_compat x y places r :
  (x == y)%Q -> is_ceil_at x places r -> is_ceil_at y places r.
Proof.
  intros E (Hup & Hmul & Hleast). split; [| split].
  - rewrite <- E. exact Hup.
  - exact Hmul.
  - intros k Hk. apply Hleast. rewrite E. exact Hk.
Qed.

(** A quote that was built, taken apart. *)
Lemma NewQuote_Ok_inv now rs b f t amount fee tr q :
  NewQuote now rs b f t amount fee = (tr, Ok q) ->
  exists c rate infoFrom infoTo product,
    rs = Some c /\
    outcome (CalculateRate c b f t) = Ok rate /\
    present c f infoFrom /\ present c t infoTo /\
    Mul amount rate = Returns product /\
    Rate q = rate /\
    AmountToDeduct q = RoundCeil (Add amount fee) (int32 (Precision infoFrom)) /\
    FinalAmount q = RoundCeil product (int32 (Precision infoTo)).
Proof.
  unfold NewQuote. destruct rs as [c |]; [| discriminate].
  intros H.
  apply bind_Ok_inv in H as (t1 & rate & t2 & Hrate & H & _).
  apply bind_Ok_inv in H as (t3 & infoFrom & t4 & Hfrom & H & _).
  apply bind_Ok_inv in H as (t5 & infoTo & t6 & Hto & H & _).
  apply bind_Ok_inv in H as (t7 & product & t8 & Hmul & H & _).
  injection H as _ <-.
  exists c, rate, infoFrom, infoTo, product. cbn [Rate AmountToDeduct FinalAmount].
  rewrite Hrate.
  repeat split; try reflexivity.
  - exact (FindCurrency_Ok _ _ _ _ Hfrom).
  - exact (FindCurrency_Ok _ _ _ _ Hto).
  - exact (lift_Ok_inv _ _ _ Hmul).
Qed.

End QuoteFacts.

(** * The claims of the specification *)

Section Claims.
Context {go_strings : GoStrings}.

(** C1. Same-currency conversion.  For every registry, base and codes
    [from] and [to] that are equal after upper-casing, [CalculateRate]
    returns 1 and no error, and it calls [FindCurrency] for no code: the
    identity check precedes the validation of the base, so an absent base
    and unknown codes still give 1. *)
Theorem CalculateRate_identity c b f t :
  upper f = upper t ->
  CalculateRate c b f t = ([EvCalculateRate b f t], Ok (NewFromInt 1)) /\
  forall code, ~ In (EvFindCurrency code) (trace (CalculateRate c b f t)).
Proof.
  intros H. rewrite (CalculateRate_same c b f t H). split; [reflexivity |].
  intros code [Hin | []]. discriminate.
Qed.

(** C2, amended.  Cross rate.  For a base [b], a source [f] and a target [t]
    that the registry holds, with pairwise different codes after
    upper-casing, a buy rate of [f] that is not zero, and exponents of that
    buy rate and of the sell rate of [t] that leave room for sixteen more
    digits (17 and 16 above the least [int32]), [CalculateRate b f t]
    succeeds and returns
    [Mul (Div 1 buy) sell]: the quotient rounded at sixteen digits, times
    the sell rate, exactly. *)
Theorem CalculateRate_cross_rate c b f t recB recF recT :
  present c (upper b) recB ->
  present c (upper f) recF -> present c (upper t) recT ->
  upper f <> upper b -> upper t <> upper b -> upper f <> upper t ->
  value (BuyRate recF) <> 0 ->
  MinInt32 + 17 <= exp (BuyRate recF) <= MaxInt32 ->
  MinInt32 + 16 <= exp (SellRate recT) <= MaxInt32 ->
  exists q r,
    Div (NewFromInt 1) (BuyRate recF) = Returns q /\
    Mul q (SellRate recT) = Returns r /\
    outcome (CalculateRate c b f t) = Ok r /\
    (Qabs (to_Q q - 1 / to_Q (BuyRate recF)) <= (1 # 2) * (10 # 1) ^ (-16))%Q /\
    (to_Q r == to_Q q * to_Q (SellRate recT))%Q.
Proof.
  intros Hb Hf Ht Hfb Htb Hft Hnz Hbuy Hsell.
  assert (Hbuy32 : in_int32 (exp (BuyRate recF)))
    by (unfold in_int32, MinInt32, MaxInt32 in *; lia).
  destruct (Div_returns (NewFromInt 1) (BuyRate recF) Hnz) as (q & Hq & Hexp).
  { unfold in_int32, DivisionPrecision, MinInt32, MaxInt32 in *. simpl. lia. }
  assert (Hmul : Mul q (SellRate recT)
                 = Returns (New (value q * value (SellRate recT))
                                (exp q + exp (SellRate recT)))).
  { apply Mul_returns. rewrite Hexp.
    unfold in_int32, DivisionPrecision, MinInt32, MaxInt32 in *. lia. }
  exists q, (New (value q * value (SellRate recT)) (exp q + exp (SellRate recT))).
  split; [exact Hq |]. split; [exact Hmul |].
  rewrite (CalculateRate_cross c b f t recB recF recT Hb Hf Ht Hfb Htb Hft).
  rewrite Hq, Hmul. split; [reflexivity |].
  split; [| apply Mul_exact, Hmul].
  destruct (Div_rounds (NewFromInt 1) (BuyRate recF) q) as [_ Hr];
    [unfold in_int32, MinInt32, MaxInt32; simpl; lia | exact Hbuy32 | exact Hq |].
  assert (H1 : (to_Q (NewFromInt 1) == 1)%Q) by reflexivity.
  rewrite H1 in Hr. exact Hr.
Qed.

(** C3. Base to target.  For a base [b] and a target [t] that the registry
    holds, with different codes after upper-casing, [CalculateRate b b t]
    succeeds and returns the sell rate of the target's record. *)
Theorem CalculateRate_base_to_target c b t recB recT :
  present c (upper b) recB -> present c (upper t) recT ->
  upper t <> upper b ->
  outcome (CalculateRate c b b t) = Ok (SellRate recT).
Proof.
  intros Hb Ht Hne.
  rewrite (CalculateRate_from_base c b t recB recT Hb Ht Hne). reflexivity.
Qed.

(** C4, amended.  Target to base.  For a base [b] and a source [f] that the
    registry holds, with different codes after upper-casing, and a buy rate
    of [f] that is not zero and whose exponent leaves room for sixteen more
    digits (it is 17 above the least [int32], or more),
    [CalculateRate b f b] succeeds and returns [Div 1 buy]: the
    multiple of [10 ^ -16] nearest to [1 / buy]. *)
Theorem CalculateRate_target_to_base c b f recB recF :
  present c (upper b) recB -> present c (upper f) recF ->
  upper f <> upper b ->
  value (BuyRate recF) <> 0 ->
  MinInt32 + 17 <= exp (BuyRate recF) <= MaxInt32 ->
  exists q,
    Div (NewFromInt 1) (BuyRate recF) = Returns q /\
    outcome (CalculateRate c b f b) = Ok q /\
    exp q = -16 /\
    (Qabs (to_Q q - 1 / to_Q (BuyRate recF)) <= (1 # 2) * (10 # 1) ^ (-16))%Q.
Proof.
  intros Hb Hf Hne Hnz Hexp.
  assert (Hbuy : in_int32 (exp (BuyRate recF)))
    by (unfold in_int32, MinInt32, MaxInt32 in *; lia).
  destruct (Div_returns (NewFromInt 1) (BuyRate recF) Hnz) as (q & Hq & _).
  { unfold in_int32, DivisionPrecision, MinInt32, MaxInt32 in *. simpl. lia. }
  exists q. split; [exact Hq |].
  rewrite (CalculateRate_to_base c b f recB recF Hb Hf Hne), Hq.
  split; [reflexivity |].
  destruct (Div_rounds (NewFromInt 1) (BuyRate recF) q) as [He Hr];
    [unfold in_int32, MinInt32, MaxInt32; simpl; lia | exact Hbuy | exact Hq |].
  split; [exact He |].
  assert (H1 : (to_Q (NewFromInt 1) == 1)%Q) by reflexivity.
  rewrite H1 in Hr. exact Hr.
Qed.

(** C5, amended.  The amounts of a quote.  Whenever [NewQuote] succeeds,
    the quote's rate is the one [CalculateRate] returns, [AmountToDeduct] is
    [amount + fee] rounded up at the precision of the [from] currency and
    [FinalAmount] is [amount * rate] rounded up at the precision of the [to]
    currency, where the precision is taken as an [int32] (its low 32 bits)
    and that [int32] is not the least one.  A precision between
    [- 2 ^ 31 + 1] and [2 ^ 31 - 1] is used as it is. *)
Theorem NewQuote_rounding now rs b f t amount fee tr q :
  NewQuote now rs b f t amount fee = (tr, Ok q) ->
  exists c rate infoFrom infoTo,
    rs = Some c /\
    outcome (CalculateRate c b f t) = Ok rate /\ Rate q = rate /\
    present c f infoFrom /\ present c t infoTo /\
    (int32 (Precision infoFrom) <> MinInt32 ->
     is_ceil_at (to_Q amount + to_Q fee) (int32 (Precision infoFrom))
       (AmountToDeduct q)) /\
    (int32 (Precision infoTo) <> MinInt32 ->
     is_ceil_at (to_Q amount * to_Q rate) (int32 (Precision infoTo))
       (FinalAmount q)) /\
    (MinInt32 < Precision infoFrom <= MaxInt32 ->
     is_ceil_at (to_Q amount + to_Q fee) (Precision infoFrom)
       (AmountToDeduct q)) /\
    (MinInt32 < Precision infoTo <= MaxInt32 ->
     is_ceil_at (to_Q amount * to_Q rate) (Precision infoTo) (FinalAmount q)).
Proof.
  intros H.
  destruct (NewQuote_Ok_inv _ _ _ _ _ _ _ _ _ H)
    as (c & rate & infoFrom & infoTo & product
        & Hrs & Hrate & Hfrom & Hto & Hmul & HR & HA & HF).
  exists c, rate, infoFrom, infoTo.
  assert (HAc : int32 (Precision infoFrom) <> MinInt32 ->
                is_ceil_at (to_Q amount + to_Q fee) (int32 (Precision infoFrom))
                  (AmountToDeduct q)).
  { intros Hne. rewrite HA.
    apply (is_ceil_at_compat (to_Q (Add amount fee))); [apply Add_exact |].
    apply RoundCeil_is_ceil; [apply int32_range | exact Hne]. }
  assert (HFc : int32 (Precision infoTo) <> MinInt32 ->
                is_ceil_at (to_Q amount * to_Q rate) (int32 (Precision infoTo))
                  (FinalAmount q)).
  { intros Hne. rewrite HF.
    apply (is_ceil_at_compat (to_Q product)); [apply Mul_exact, Hmul |].
    apply RoundCeil_is_ceil; [apply int32_range | exact Hne]. }
  split; [exact Hrs |]. split; [exact Hrate |]. split; [exact HR |].
  split; [exact Hfrom |]. split; [exact Hto |].
  split; [exact HAc |]. split; [exact HFc |].
  split; intros Hp.
  - rewrite int32_id in HAc by (unfold in_int32; lia). apply HAc. lia.
  - rewrite int32_id in HFc by (unfold in_int32; lia). apply HFc. lia.
Qed.

(** C6. Missing base.  For codes [from] and [to] that differ after
    upper-casing and a base that no record of the registry matches,
    [CalculateRate] looks up the base only and fails with
    [ErrBaseCurrencyNotFound]: not with the [ErrCurrencyNotFound] of a code,
    and not with the error the lookup itself returned. *)
Theorem CalculateRate_base_not_found c b f t :
  upper f <> upper t -> absent c (upper b) ->
  CalculateRate c b f t =
    ([EvCalculateRate b f t; EvFindCurrency (upper b)],
     Err ErrBaseCurrencyNotFound) /\
  (forall code, outcome (CalculateRate c b f t) <> Err (ErrCurrencyNotFound code)) /\
  (exists e, outcome (FindCurrency c (upper b)) = Err e /\
             (e = ErrEmptyCurrencySource \/ e = ErrCurrencyNotFound (upper b)) /\
             outcome (CalculateRate c b f t) <> Err e).
Proof.
  intros Hft Hb. rewrite (CalculateRate_no_base c b f t Hft Hb).
  split; [reflexivity |]. split; [discriminate |].
  rewrite (FindCurrency_absent c (upper b) Hb). cbn [outcome snd].
  eexists. split; [reflexivity |].
  destruct (Z.of_nat (List.length (currencies c)) =? 0);
    (split; [auto | discriminate]).
Qed.

(** The outcomes of [NewCurrencies] by what the encoder and the decoder
    return, for any two functions in their place. *)
Lemma NewCurrencies_outcomes (T : Type)
    (json_Marshal : list T -> string + list Byte.byte)
    (json_Unmarshal : list Byte.byte -> string + list Currency)
    (sourceRates : list T) :
  let result := NewCurrencies T json_Marshal json_Unmarshal sourceRates in
  (forall err, json_Marshal sourceRates = inl err -> result = Err (ErrJSON err)) /\
  (forall b err, json_Marshal sourceRates = inr b ->
                 json_Unmarshal b = inl err -> result = Err (ErrJSON err)) /\
  (forall b, json_Marshal sourceRates = inr b ->
             json_Unmarshal b = inr [] -> result = Err ErrEmptyCurrencySource) /\
  (forall b cs, json_Marshal sourceRates = inr b ->
                json_Unmarshal b = inr cs -> cs <> [] ->
                result = Ok {| currencies := cs |}) /\
  (forall r, result = Ok r ->
             currencies r <> [] /\
             exists b, json_Marshal sourceRates = inr b /\
                       json_Unmarshal b = inr (currencies r)) /\
  (forall p, result <> Panic p).
Proof.
  cbv zeta. unfold NewCurrencies.
  destruct (json_Marshal sourceRates) as [e | b];
    [| destruct (json_Unmarshal b) as [e | [| x cs]] eqn:Hu];
    cbn [List.length Z.of_nat Z.eqb];
    repeat match goal with |- _ /\ _ => split end;
    intros;
    repeat match goal with
      | H : inr _ = inr _ |- _ => injection H as H; subst
      | H : inl _ = inl _ |- _ => injection H as H; subst
      | H : Ok _ = Ok _ |- _ => injection H as H; subst
      end;
    try discriminate; try congruence.
  split; [discriminate | exists b; split; [reflexivity | exact Hu]].
Qed.

(** C8. Case-insensitive lookup.  With an [EqualFold] that is symmetric and
    transitive, two codes that are equal up to case have the same outcome
    in every non-empty registry: the same record, when a record's ISO code
    equals them up to case, and otherwise [ErrCurrencyNotFound] with the
    code that was asked for. *)
Theorem FindCurrency_case_insensitive
    (EqualFold_sym : forall s t, EqualFold s t = EqualFold t s)
    (EqualFold_trans : forall s t u,
        EqualFold s t = true -> EqualFold t u = true -> EqualFold s u = true)
    c c1 c2 :
  currencies c <> [] -> EqualFold c1 c2 = true ->
  (exists cur, present c c1 cur /\ present c c2 cur /\
               outcome (FindCurrency c c1) = Ok cur /\
               outcome (FindCurrency c c2) = Ok cur) \/
  (absent c c1 /\ absent c c2 /\
   outcome (FindCurrency c c1) = Err (ErrCurrencyNotFound c1) /\
   outcome (FindCurrency c c2) = Err (ErrCurrencyNotFound c2)).
Proof.
  intros Hne H. apply FindCurrency_fold_equal; [| exact Hne].
  apply EqualFold_congr; assumption.
Qed.

(** C9. No registry.  [NewQuote] on a nil registry fails with the error
    "currency object empty. shouldnt be" and builds no quote; it calls
    neither [CalculateRate] nor [FindCurrency]. *)
Theorem NewQuote_nil_registry now b f t amount fee :
  NewQuote now None b f t amount fee = ([], Err ErrCurrencyObjectEmpty) /\
  Error ErrCurrencyObjectEmpty = "currency object empty. shouldnt be"%string.
Proof. split; reflexivity. Qed.

(** C10. Zero buy rate.  When the registry holds the base [b] and a source
    [f] with another code whose buy rate is zero, [CalculateRate b f b]
    panics with a division by zero, and so does [CalculateRate b f t] for
    every third currency [t] the registry holds: no value and no error is
    returned. *)
Theorem CalculateRate_zero_buy_rate c b f recB recF :
  present c (upper b) recB -> present c (upper f) recF ->
  upper f <> upper b ->
  value (BuyRate recF) = 0 ->
  outcome (CalculateRate c b f b) = Panic PanicDivisionByZero /\
  forall t recT,
    present c (upper t) recT -> upper t <> upper b -> upper f <> upper t ->
    outcome (CalculateRate c b f t) = Panic PanicDivisionByZero.
Proof.
  intros Hb Hf Hne Hz. split.
  - rewrite (CalculateRate_to_base c b f recB recF Hb Hf Hne).
    rewrite (Div_zero _ _ Hz). reflexivity.
  - intros t recT Ht Htb Hft.
    rewrite (CalculateRate_cross c b f t recB recF recT Hb Hf Ht Hne Htb Hft).
    rewrite (Div_zero _ _ Hz). reflexivity.
Qed.

End Claims.

Section Construction.
Variable T : Type.
Variable marshalElems : list T -> string + list Byte.byte.
Variable unmarshalOther : list Byte.byte -> string + list Currency.

(** [NewCurrencies] on [encoding/json]: the source is a slice of [T],
    nil or not when it has no elements, a byte slice for the encoder or
    not. *)
Let construct (byteSlice isNil : bool) (sourceRates : list T)
  : result Currencies :=
  NewCurrencies T (json.Marshal T byteSlice marshalElems isNil)
    (json.Unmarshal unmarshalOther) sourceRates.

(** C7, amended.  Construction.  [NewCurrencies] fails with
    [ErrEmptyCurrencySource] on a nil source of any element type and on an
    empty source that is not a byte slice; on an empty byte slice, which
    [json.Marshal] writes as a string, it fails with the decode error.  For
    every source it fails with the error of [encoding/json] when the source
    cannot be encoded or the text cannot be decoded into currencies, fails
    with [ErrEmptyCurrencySource] when the decoded collection is empty, and
    otherwise returns a registry that holds the decoded records; a registry
    it returns is never empty, and neither is its source. *)
Theorem NewCurrencies_on_json :
  (forall byteSlice, construct byteSlice true [] = Err ErrEmptyCurrencySource) /\
  construct false false [] = Err ErrEmptyCurrencySource /\
  construct true false [] = Err (ErrJSON json.stringIntoCurrencies) /\
  forall byteSlice isNil sourceRates,
    let text := json.Marshal T byteSlice marshalElems isNil sourceRates in
    let result := construct byteSlice isNil sourceRates in
    (forall err, text = inl err -> result = Err (ErrJSON err)) /\
    (forall b err, text = inr b ->
                   json.Unmarshal unmarshalOther b = inl err ->
                   result = Err (ErrJSON err)) /\
    (forall b, text = inr b ->
               json.Unmarshal unmarshalOther b = inr [] ->
               result = Err ErrEmptyCurrencySource) /\
    (forall b cs, text = inr b ->
                  json.Unmarshal unmarshalOther b = inr cs -> cs <> [] ->
                  result = Ok {| currencies := cs |}) /\
    (forall r, result = Ok r ->
               currencies r <> [] /\ sourceRates <> [] /\
               exists b, text = inr b /\
                         json.Unmarshal unmarshalOther b = inr (currencies r)).
Proof.
  split; [intros [|]; reflexivity |].
  split; [reflexivity |]. split; [reflexivity |].
  intros byteSlice isNil sourceRates text result.
  destruct (NewCurrencies_outcomes T
              (json.Marshal T byteSlice marshalElems isNil)
              (json.Unmarshal unmarshalOther) sourceRates)
    as (H1 & H2 & H3 & H4 & H5 & _).
  split; [exact H1 |]. split; [exact H2 |]. split; [exact H3 |].
  split; [exact H4 |].
  intros r Hr. destruct (H5 r Hr) as (Hne & b & Hb & Hu).
  split; [exact Hne |]. split; [| exists b; split; assumption].
  intros ->. subst result. unfold construct in Hr.
  destruct isNil, byteSlice; discriminate Hr.
Qed.

End Construction.

(** * Further properties of the registry and the calculator *)

Section MoreDecimalFacts.

Lemma Div_Panics d d2 p :
  Div d d2 = Panics p ->
  (p = PanicDivisionByZero /\ value d2 = 0) \/ p = PanicQuoRemOverflow.
Proof.
  unfold Div, DivRound, QuoRem.
  destruct (Z.eqb_spec (Z.sgn (value d2)) 0) as [H0 | _].
  { intros [= <-]. left. split; [reflexivity |].
    apply -> Z.sgn_null_iff in H0. exact H0. }
  destruct (_ || _); [intros [= <-]; right; reflexivity |].
  destruct (_ <? 0); cbv beta iota zeta;
    (destruct (Cmp _ _ <? 0); [discriminate |]);
    destruct (_ <? 0); discriminate.
Qed.

Lemma Mul_Panics d d2 p :
  Mul d d2 = Panics p -> p = PanicExponentOverflow (exp d + exp d2).
Proof.
  unfold Mul. destruct (_ || _); [| discriminate].
  intros [= <-]. reflexivity.
Qed.

(** Rounding up overshoots by less than one unit of the last digit. *)
Lemma is_ceil_at_bounds x places r :
  is_ceil_at x places r ->
  (x <= to_Q r)%Q /\ (to_Q r < x + (10 # 1) ^ (- places))%Q.
Proof.
  intros (Hup & [k Hk] & Hleast). split; [exact Hup |].
  apply Qnot_le_lt. intros Hle.
  pose proof (pow10_pos (- places)) as Hpos.
  assert (Hx : (x <= inject_Z (k - 1) * (10 # 1) ^ (- places))%Q).
  { unfold Zminus. rewrite inject_Z_plus, inject_Z_opp. rewrite Hk in Hle.
    apply (Qplus_le_l _ _ ((10 # 1) ^ (- places))).
    setoid_replace ((inject_Z k + - inject_Z 1) * (10 # 1) ^ (- places)
                    + (10 # 1) ^ (- places))%Q
      with (inject_Z k * (10 # 1) ^ (- places))%Q by ring.
    exact Hle. }
  apply Hleast in Hx. rewrite Hk in Hx.
  apply Qmult_le_r in Hx; [| exact Hpos].
  rewrite <- Zle_Qle in Hx. lia.
Qed.

End MoreDecimalFacts.

Section MoreRegistryFacts.
Context {go_strings : GoStrings}.

Lemma first_match_split code l cur :
  first_match code l cur ->
  exists before after,
    l = before ++ cur :: after /\
    matches code cur = true /\
    Forall (fun x => matches code x = false) before.
Proof.
  induction 1 as [cur rest Hm | other rest cur Hm _ (bef & aft & -> & Hc & Hb)].
  - exists [], rest. repeat split; [exact Hm | constructor].
  - exists (other :: bef), aft. repeat split; [exact Hc |].
    constructor; assumption.
Qed.

Lemma first_match_exists code l cur :
  In cur l -> matches code cur = true -> exists cur', first_match code l cur'.
Proof.
  induction l as [| x l IH]; intros Hin Hm; [contradiction |].
  destruct (matches code x) eqn:Hx.
  - exists x. constructor. exact Hx.
  - destruct Hin as [-> | Hin]; [congruence |].
    destruct (IH Hin Hm) as [cur' H]. exists cur'.
    apply first_match_later; assumption.
Qed.

Lemma present_not_absent c code cur : present c code cur -> ~ absent c code.
Proof.
  intros Hp Ha. apply first_match_find in Hp. apply absent_find in Ha.
  congruence.
Qed.

Lemma present_nonempty c code cur :
  present c code cur -> (Z.of_nat (List.length (currencies c)) =? 0) = false.
Proof.
  intros H. apply first_match_nonempty in H.
  destruct (currencies c); [contradiction | reflexivity].
Qed.

Lemma nonempty_length c :
  currencies c <> [] -> (Z.of_nat (List.length (currencies c)) =? 0) = false.
Proof. destruct (currencies c); [contradiction | reflexivity]. Qed.

(** The run of [CalculateRate] when the codes differ and the base is
    held: the lookups that follow, by branch. *)
Lemma CalculateRate_with_base c b f t recB :
  upper f <> upper t -> present c (upper b) recB ->
  CalculateRate c b f t =
    bind ([EvCalculateRate b f t; EvFindCurrency (upper b)], Ok tt)
      (fun _ =>
         if String.eqb (upper f) (upper b) then
           bind (FindCurrency c (upper t)) (fun toCurrency =>
             ret (SellRate toCurrency))
         else if String.eqb (upper t) (upper b) then
           bind (FindCurrency c (upper f)) (fun fromCurrency =>
             lift (Div (NewFromInt 1) (BuyRate fromCurrency)))
         else
           bind (FindCurrency c (upper f)) (fun fromCurrency =>
           bind (FindCurrency c (upper t)) (fun toCurrency =>
           bind (lift (Div (NewFromInt 1) (BuyRate fromCurrency))) (fun q =>
             lift (Mul q (SellRate toCurrency)))))).
Proof.
  intros Hft Hb. unfold CalculateRate. fold (upper b) (upper f) (upper t).
  rewrite bind_emit. apply String.eqb_neq in Hft. rewrite Hft.
  rewrite (FindCurrency_present _ _ _ Hb). unfold orFail.
  rewrite !bind_Ok. reflexivity.
Qed.

(** A lookup in a registry that holds some code ends in a record or in
    [ErrCurrencyNotFound]. *)
Lemma FindCurrency_nonempty c code :
  currencies c <> [] ->
  (exists cur, present c code cur /\
               FindCurrency c code = ([EvFindCurrency code], Ok cur)) \/
  (absent c code /\
   FindCurrency c code = ([EvFindCurrency code], Err (ErrCurrencyNotFound code))).
Proof.
  intros Hne. destruct (present_or_absent c code) as [[cur Hp] | Ha].
  - left. exists cur. split; [exact Hp | apply FindCurrency_present, Hp].
  - right. split; [exact Ha |].
    rewrite (FindCurrency_absent _ _ Ha), (nonempty_length _ Hne). reflexivity.
Qed.

(** The errors of [CalculateRate]. *)
Lemma CalculateRate_Err_inv c b f t e :
  outcome (CalculateRate c b f t) = Err e ->
  upper f <> upper t /\
  ((e = ErrBaseCurrencyNotFound /\ absent c (upper b)) \/
   (e = ErrCurrencyNotFound (upper f) /\ absent c (upper f) /\
    exists recB, present c (upper b) recB) \/
   (e = ErrCurrencyNotFound (upper t) /\ absent c (upper t) /\
    exists recB, present c (upper b) recB)).
Proof.
  intros H.
  destruct (String.eqb_spec (upper f) (upper t)) as [Heq | Hft].
  { rewrite (CalculateRate_same c b f t Heq) in H. discriminate. }
  split; [exact Hft |].
  destruct (present_or_absent c (upper b)) as [[recB Hb] | Hb].
  2:{ rewrite (CalculateRate_no_base c b f t Hft Hb) in H.
      injection H as <-. left. split; [reflexivity | exact Hb]. }
  assert (Hne : currencies c <> []) by exact (first_match_nonempty _ _ _ Hb).
  rewrite (CalculateRate_with_base c b f t recB Hft Hb), bind_Ok in H.
  cbn [outcome snd] in H. right.
  destruct (String.eqb (upper f) (upper b)).
  - destruct (FindCurrency_nonempty c (upper t) Hne)
      as [(rt & Hpt & Et) | (Hat & Et)]; rewrite Et in H; [discriminate |].
    injection H as <-. right. eauto.
  - destruct (String.eqb (upper t) (upper b)).
    + destruct (FindCurrency_nonempty c (upper f) Hne)
        as [(rf & Hpf & Ef) | (Haf & Ef)]; rewrite Ef in H.
      * rewrite bind_Ok in H. destruct (Div _ _); discriminate.
      * injection H as <-. left. eauto.
    + destruct (FindCurrency_nonempty c (upper f) Hne)
        as [(rf & Hpf & Ef) | (Haf & Ef)]; rewrite Ef in H.
      * rewrite bind_Ok in H.
        destruct (FindCurrency_nonempty c (upper t) Hne)
          as [(rt & Hpt & Et) | (Hat & Et)]; rewrite Et in H.
        -- rewrite bind_Ok in H. cbn [outcome snd] in H.
           destruct (Div _ _) as [q |]; [| discriminate].
           unfold lift, ret in H. rewrite bind_Ok in H.
           destruct (Mul _ _); discriminate.
        -- injection H as <-. right. eauto.
      * injection H as <-. left. eauto.
Qed.

(** What a successful [CalculateRate] on different codes has found. *)
Lemma CalculateRate_Ok_inv c b f t rate :
  outcome (CalculateRate c b f t) = Ok rate ->
  upper f <> upper t ->
  exists recB recF recT,
    present c (upper b) recB /\
    present c (upper f) recF /\ present c (upper t) recT.
Proof.
  intros H Hft.
  destruct (present_or_absent c (upper b)) as [[recB Hb] | Hb].
  2:{ rewrite (CalculateRate_no_base c b f t Hft Hb) in H. discriminate. }
  assert (Hne : currencies c <> []) by exact (first_match_nonempty _ _ _ Hb).
  rewrite (CalculateRate_with_base c b f t recB Hft Hb), bind_Ok in H.
  cbn [outcome snd] in H.
  destruct (String.eqb_spec (upper f) (upper b)) as [Hfb | Hfb].
  - destruct (FindCurrency_nonempty c (upper t) Hne) as [(rt & Hpt & Et) | (Hat & Et)];
      rewrite Et in H; [| discriminate].
    exists recB, recB, rt. rewrite Hfb. repeat split; assumption.
  - destruct (String.eqb_spec (upper t) (upper b)) as [Htb | Htb].
    + destruct (FindCurrency_nonempty c (upper f) Hne) as [(rf & Hpf & Ef) | (Haf & Ef)];
        rewrite Ef in H; [| discriminate].
      exists recB, rf, recB. rewrite Htb. repeat split; assumption.
    + destruct (FindCurrency_nonempty c (upper f) Hne) as [(rf & Hpf & Ef) | (Haf & Ef)];
        rewrite Ef in H; [| discriminate].
      rewrite bind_Ok in H.
      destruct (FindCurrency_nonempty c (upper t) Hne) as [(rt & Hpt & Et) | (Hat & Et)];
        rewrite Et in H; [| discriminate].
      exists recB, rf, rt. repeat split; assumption.
Qed.

End MoreRegistryFacts.

Section Extras.
Context {go_strings : GoStrings}.

(** X1. With several records under one code the first wins: the record
    [FindCurrency] returns is in the registry, its ISO code equals the
    requested code up to case, and no record before it does. *)
Theorem FindCurrency_first_wins c code t cur :
  FindCurrency c code = (t, Ok cur) ->
  exists before after,
    currencies c = before ++ cur :: after /\
    EqualFold (ISOCode cur) code = true /\
    forall x, In x before -> EqualFold (ISOCode x) code = false.
Proof.
  intros H. apply FindCurrency_Ok in H.
  destruct (first_match_split _ _ _ H) as (bef & aft & E & Hm & Hb).
  exists bef, aft. split; [exact E |]. split; [exact Hm |].
  intros x Hx. rewrite Forall_forall in Hb. exact (Hb x Hx).
Qed.

(** X3. A code that some record carries is found: the lookup returns a
    record of the registry with that code, and it returns that very record
    when it is the only one with the code. *)
Theorem FindCurrency_member c code cur :
  In cur (currencies c) -> EqualFold (ISOCode cur) code = true ->
  (exists cur', outcome (FindCurrency c code) = Ok cur' /\
                In cur' (currencies c) /\
                EqualFold (ISOCode cur') code = true) /\
  ((forall x, In x (currencies c) -> EqualFold (ISOCode x) code = true ->
              x = cur) ->
   outcome (FindCurrency c code) = Ok cur).
Proof.
  intros Hin Hm.
  destruct (first_match_exists code _ cur Hin Hm) as [cur' Hp].
  destruct (first_match_In _ _ _ Hp) as [Hin' Hm'].
  rewrite (FindCurrency_present c code cur' Hp). cbn [outcome snd].
  split.
  - exists cur'. split; [reflexivity |]. split; [exact Hin' | exact Hm'].
  - intros Huniq. rewrite (Huniq cur' Hin' Hm'). reflexivity.
Qed.

(** X4. Construction, then lookup.  In a registry that [NewCurrencies]
    returned no lookup fails with [ErrEmptyCurrencySource], and every record
    is found again under its own ISO code (a record with that code is
    returned), as soon as [EqualFold] holds of that code and itself. *)
Theorem NewCurrencies_then_FindCurrency (T : Type)
    (json_Marshal : list T -> string + list Byte.byte)
    (json_Unmarshal : list Byte.byte -> string + list Currency)
    (sourceRates : list T) r :
  NewCurrencies T json_Marshal json_Unmarshal sourceRates = Ok r ->
  (forall code, outcome (FindCurrency r code) <> Err ErrEmptyCurrencySource) /\
  (forall cur,
      In cur (currencies r) ->
      EqualFold (ISOCode cur) (ISOCode cur) = true ->
      exists cur', outcome (FindCurrency r (ISOCode cur)) = Ok cur' /\
                   EqualFold (ISOCode cur') (ISOCode cur) = true).
Proof.
  intros H.
  assert (Hne : currencies r <> []).
  { unfold NewCurrencies in H.
    destruct (json_Marshal sourceRates) as [e | b]; [discriminate |].
    destruct (json_Unmarshal b) as [e | [| x cs]]; try discriminate.
    cbn in H. injection H as <-. discriminate. }
  split.
  - intros code.
    destruct (FindCurrency_nonempty r code Hne) as [(cur & _ & E) | (_ & E)];
      rewrite E; discriminate.
  - intros cur Hin Hrefl.
    destruct (first_match_exists (ISOCode cur) _ cur Hin Hrefl) as [cur' Hp].
    exists cur'. rewrite (FindCurrency_present r _ cur' Hp).
    split; [reflexivity | exact (proj2 (first_match_In _ _ _ Hp))].
Qed.

(** X5. The errors of [CalculateRate].  It fails only on codes that
    differ after upper-casing, and only in three ways:
    [ErrBaseCurrencyNotFound] when no record matches the base, or
    [ErrCurrencyNotFound] with the upper-cased [from] or [to] code when no
    record matches that code.  [ErrEmptyCurrencySource] never comes out of
    it. *)
Theorem CalculateRate_errors c b f t e :
  outcome (CalculateRate c b f t) = Err e ->
  upper f <> upper t /\
  ((e = ErrBaseCurrencyNotFound /\ absent c (upper b)) \/
   (e = ErrCurrencyNotFound (upper f) /\ absent c (upper f)) \/
   (e = ErrCurrencyNotFound (upper t) /\ absent c (upper t))) /\
  e <> ErrEmptyCurrencySource.
Proof.
  intros H. destruct (CalculateRate_Err_inv c b f t e H) as [Hft Hcases].
  split; [exact Hft |].
  destruct Hcases as [[-> Ha] | [(-> & Ha & _) | (-> & Ha & _)]];
    (split; [auto | discriminate]).
Qed.

(** X6. Unknown source.  With the base held, codes that differ after
    upper-casing and no record for [from], [CalculateRate] fails with
    [ErrCurrencyNotFound] carrying the upper-cased [from] code, after two
    lookups: [to] is not looked up, held or not. *)
Theorem CalculateRate_from_not_found c b f t recB :
  present c (upper b) recB -> upper f <> upper t -> absent c (upper f) ->
  CalculateRate c b f t =
    ([EvCalculateRate b f t; EvFindCurrency (upper b); EvFindCurrency (upper f)],
     Err (ErrCurrencyNotFound (upper f))).
Proof.
  intros Hb Hft Haf.
  assert (Hne : currencies c <> []) by exact (first_match_nonempty _ _ _ Hb).
  assert (Ef : FindCurrency c (upper f)
               = ([EvFindCurrency (upper f)], Err (ErrCurrencyNotFound (upper f)))).
  { rewrite (FindCurrency_absent _ _ Haf), (nonempty_length _ Hne). reflexivity. }
  rewrite (CalculateRate_with_base c b f t recB Hft Hb), bind_Ok.
  destruct (String.eqb_spec (upper f) (upper b)) as [Hfb | _].
  { exfalso. rewrite Hfb in Haf. exact (present_not_absent _ _ _ Hb Haf). }
  destruct (String.eqb (upper t) (upper b)); rewrite Ef; reflexivity.
Qed.

(** X7. Unknown target.  With the base and [from] held, codes that differ
    after upper-casing and no record for [to], [CalculateRate] fails with
    [ErrCurrencyNotFound] carrying the upper-cased [to] code: the lookup
    comes before the division, so this holds for a zero buy rate too. *)
Theorem CalculateRate_to_not_found c b f t recB recF :
  present c (upper b) recB -> present c (upper f) recF ->
  upper f <> upper t -> absent c (upper t) ->
  outcome (CalculateRate c b f t) = Err (ErrCurrencyNotFound (upper t)).
Proof.
  intros Hb Hf Hft Hat.
  assert (Hne : currencies c <> []) by exact (first_match_nonempty _ _ _ Hb).
  assert (Et : FindCurrency c (upper t)
               = ([EvFindCurrency (upper t)], Err (ErrCurrencyNotFound (upper t)))).
  { rewrite (FindCurrency_absent _ _ Hat), (nonempty_length _ Hne). reflexivity. }
  rewrite (CalculateRate_with_base c b f t recB Hft Hb), bind_Ok.
  cbn [outcome snd].
  destruct (String.eqb (upper f) (upper b)); [rewrite Et; reflexivity |].
  destruct (String.eqb_spec (upper t) (upper b)) as [Htb | _].
  { exfalso. rewrite Htb in Hat. exact (present_not_absent _ _ _ Hb Hat). }
  rewrite (FindCurrency_present _ _ _ Hf), bind_Ok, Et. reflexivity.
Qed.

(** X8. Only the upper-cased codes count: two calls whose base, [from] and
    [to] codes agree after upper-casing end alike. *)
Theorem CalculateRate_upper_only c b f t b' f' t' :
  upper b = upper b' -> upper f = upper f' -> upper t = upper t' ->
  outcome (CalculateRate c b f t) = outcome (CalculateRate c b' f' t').
Proof.
  unfold upper. intros Hb Hf Ht. unfold CalculateRate.
  rewrite !bind_emit, Hb, Hf, Ht. reflexivity.
Qed.

(** X9. A division by zero in [CalculateRate] has one cause: [from] differs
    from [to] and from the base after upper-casing, and the record held for
    [from] has a zero buy rate. *)
Theorem CalculateRate_division_by_zero_cause c b f t :
  outcome (CalculateRate c b f t) = Panic PanicDivisionByZero ->
  upper f <> upper t /\ upper f <> upper b /\
  exists recF, present c (upper f) recF /\ value (BuyRate recF) = 0.
Proof.
  intros H.
  destruct (String.eqb_spec (upper f) (upper t)) as [Heq | Hft].
  { rewrite (CalculateRate_same c b f t Heq) in H. discriminate. }
  split; [exact Hft |].
  destruct (present_or_absent c (upper b)) as [[recB Hb] | Hb].
  2:{ rewrite (CalculateRate_no_base c b f t Hft Hb) in H. discriminate. }
  assert (Hne : currencies c <> []) by exact (first_match_nonempty _ _ _ Hb).
  rewrite (CalculateRate_with_base c b f t recB Hft Hb), bind_Ok in H.
  cbn [outcome snd] in H.
  destruct (String.eqb_spec (upper f) (upper b)) as [Hfb | Hfb].
  { destruct (FindCurrency_nonempty c (upper t) Hne)
      as [(rt & _ & Et) | (_ & Et)]; rewrite Et in H; discriminate. }
  split; [exact Hfb |].
  destruct (FindCurrency_nonempty c (upper f) Hne)
    as [(rf & Hpf & Ef) | (_ & Ef)].
  2:{ destruct (String.eqb (upper t) (upper b)); rewrite Ef in H; discriminate. }
  exists rf. split; [exact Hpf |].
  destruct (Div (NewFromInt 1) (BuyRate rf)) as [q | p] eqn:HD.
  - exfalso. destruct (String.eqb (upper t) (upper b)); rewrite Ef, bind_Ok in H.
    + rewrite HD in H. discriminate.
    + destruct (FindCurrency_nonempty c (upper t) Hne)
        as [(rt & _ & Et) | (_ & Et)]; rewrite Et in H; [| discriminate].
      rewrite bind_Ok, HD in H. unfold lift, ret in H. rewrite bind_Ok in H.
      cbn [outcome snd] in H.
      destruct (Mul q (SellRate rt)) as [r | p] eqn:HM; [discriminate |].
      apply Mul_Panics in HM. subst p. discriminate.
  - destruct (Div_Panics _ _ _ HD) as [[_ Hz] | ->]; [exact Hz |].
    exfalso. destruct (String.eqb (upper t) (upper b)); rewrite Ef, bind_Ok in H.
    + rewrite HD in H. discriminate.
    + destruct (FindCurrency_nonempty c (upper t) Hne)
        as [(rt & _ & Et) | (_ & Et)]; rewrite Et in H; [| discriminate].
      rewrite bind_Ok, HD in H. discriminate.
Qed.

(** X10. A rate needs its codes.  When [CalculateRate] returns a rate,
    either the codes are equal after upper-casing and the rate is 1, or the
    registry holds the base, [from] and [to]. *)
Theorem CalculateRate_success_needs_codes c b f t rate :
  outcome (CalculateRate c b f t) = Ok rate ->
  (upper f = upper t /\ rate = NewFromInt 1) \/
  (upper f <> upper t /\
   exists recB recF recT,
     present c (upper b) recB /\
     present c (upper f) recF /\ present c (upper t) recT).
Proof.
  intros H.
  destruct (String.eqb_spec (upper f) (upper t)) as [Heq | Hft].
  - left. split; [exact Heq |].
    rewrite (CalculateRate_same c b f t Heq) in H. injection H as <-. reflexivity.
  - right. split; [exact Hft | exact (CalculateRate_Ok_inv c b f t rate H Hft)].
Qed.

(** X11. When a quote is built.  If [CalculateRate] returns a rate, the
    registry holds [from] and [to] under the codes as they were given, and
    the exponents of the amount and the rate add up within [int32], then
    [NewQuote] succeeds after two more lookups; the quote carries the codes,
    the amount and the fee as given, the rate, and the two rounded
    amounts. *)
Theorem NewQuote_succeeds now c b f t amount fee tr rate infoFrom infoTo :
  CalculateRate c b f t = (tr, Ok rate) ->
  present c f infoFrom -> present c t infoTo ->
  in_int32 (exp amount + exp rate) ->
  NewQuote now (Some c) b f t amount fee =
    (tr ++ [EvFindCurrency f; EvFindCurrency t],
     Ok {| BaseCurrency := b; FromCurrency := f;
           FromAmount := amount; Fee := fee;
           AmountToDeduct :=
             RoundCeil (Add amount fee) (int32 (Precision infoFrom));
           Rate := rate; ToCurrency := t;
           FinalAmount :=
             RoundCeil (New (value amount * value rate) (exp amount + exp rate))
               (int32 (Precision infoTo));
           Date := now |}).
Proof.
  intros Hrate Hf Ht Hexp. unfold NewQuote.
  rewrite Hrate, bind_Ok, (FindCurrency_present _ _ _ Hf), bind_Ok.
  rewrite (FindCurrency_present _ _ _ Ht), bind_Ok, (Mul_returns _ _ Hexp).
  cbn. reflexivity.
Qed.

(** X12. The errors of [NewQuote] on a registry.  They are those of
    [CalculateRate], [ErrCurrencyNotFound] with the [from] or the [to] code
    as it was given, and [ErrEmptyCurrencySource]; the last one only on a
    registry without records and codes that are equal after upper-casing. *)
Theorem NewQuote_errors now c b f t amount fee e :
  outcome (NewQuote now (Some c) b f t amount fee) = Err e ->
  e = ErrBaseCurrencyNotFound \/
  e = ErrCurrencyNotFound (upper f) \/ e = ErrCurrencyNotFound (upper t) \/
  e = ErrCurrencyNotFound f \/ e = ErrCurrencyNotFound t \/
  (e = ErrEmptyCurrencySource /\ currencies c = [] /\ upper f = upper t).
Proof.
  unfold NewQuote. intros H.
  destruct (CalculateRate c b f t) as [tr [rate | e' | p]] eqn:E.
  - rewrite bind_Ok in H. cbn [outcome snd] in H.
    destruct (currencies c) as [| x l] eqn:Hc.
    + assert (Ef : FindCurrency c f = ([EvFindCurrency f], Err ErrEmptyCurrencySource)).
      { unfold FindCurrency. rewrite bind_emit, Hc. reflexivity. }
      rewrite Ef in H. injection H as <-.
      do 5 right. split; [reflexivity |]. split; [reflexivity |].
      destruct (String.eqb_spec (upper f) (upper t)) as [Heq | Hft]; [exact Heq |].
      exfalso.
      assert (Hok : outcome (CalculateRate c b f t) = Ok rate) by (rewrite E; reflexivity).
      destruct (CalculateRate_Ok_inv c b f t rate Hok Hft) as (recB & _ & _ & Hb & _).
      apply first_match_nonempty in Hb. exact (Hb Hc).
    + assert (Hne : currencies c <> []) by (rewrite Hc; discriminate).
      destruct (FindCurrency_nonempty c f Hne) as [(rf & _ & Ef) | (_ & Ef)];
        rewrite Ef in H.
      2:{ injection H as <-. auto 10. }
      rewrite bind_Ok in H. cbn [outcome snd] in H.
      destruct (FindCurrency_nonempty c t Hne) as [(rt & _ & Et) | (_ & Et)];
        rewrite Et in H.
      2:{ injection H as <-. auto 10. }
      rewrite bind_Ok in H. cbn [outcome snd] in H.
      destruct (Mul amount rate); discriminate.
  - injection H as <-.
    assert (Herr : outcome (CalculateRate c b f t) = Err e') by (rewrite E; reflexivity).
    destruct (CalculateRate_Err_inv c b f t e' Herr)
      as [_ [[-> _] | [(-> & _) | (-> & _)]]]; auto.
  - discriminate.
Qed.

(** X13. A quote in one currency still needs that currency.  When the
    codes are equal after upper-casing the rate is 1 without a lookup, but
    [NewQuote] then looks up [from] as it was given: with no record for it
    the quote fails after that one lookup, with [ErrEmptyCurrencySource] on
    a registry without records and [ErrCurrencyNotFound] otherwise. *)
Theorem NewQuote_same_currency_unknown now c b f t amount fee :
  upper f = upper t -> absent c f ->
  NewQuote now (Some c) b f t amount fee =
    ([EvCalculateRate b f t; EvFindCurrency f],
     Err (if Z.of_nat (List.length (currencies c)) =? 0
          then ErrEmptyCurrencySource else ErrCurrencyNotFound f)).
Proof.
  intros Heq Ha. unfold NewQuote.
  rewrite (CalculateRate_same c b f t Heq), bind_Ok.
  rewrite (FindCurrency_absent _ _ Ha). reflexivity.
Qed.

(** X14. The rounded amounts are never below the exact ones and exceed
    them by less than one unit of the last digit: for precisions within
    [int32], above the least one, [amount + fee <= AmountToDeduct
    < amount + fee + 10 ^ - precision], and likewise [FinalAmount] around
    [amount * rate]. *)
Theorem NewQuote_amount_bounds now rs b f t amount fee tr q :
  NewQuote now rs b f t amount fee = (tr, Ok q) ->
  exists c infoFrom infoTo,
    rs = Some c /\ present c f infoFrom /\ present c t infoTo /\
    (MinInt32 < Precision infoFrom <= MaxInt32 ->
     (to_Q amount + to_Q fee <= to_Q (AmountToDeduct q))%Q /\
     (to_Q (AmountToDeduct q)
      < to_Q amount + to_Q fee + (10 # 1) ^ (- Precision infoFrom))%Q) /\
    (MinInt32 < Precision infoTo <= MaxInt32 ->
     (to_Q amount * to_Q (Rate q) <= to_Q (FinalAmount q))%Q /\
     (to_Q (FinalAmount q)
      < to_Q amount * to_Q (Rate q) + (10 # 1) ^ (- Precision infoTo))%Q).
Proof.
  intros H.
  destruct (NewQuote_Ok_inv _ _ _ _ _ _ _ _ _ H)
    as (c & rate & infoFrom & infoTo & product
        & Hrs & _ & Hfrom & Hto & Hmul & HR & HA & HF).
  exists c, infoFrom, infoTo.
  split; [exact Hrs |]. split; [exact Hfrom |]. split; [exact Hto |].
  split; intros Hp.
  - apply is_ceil_at_bounds. rewrite HA.
    rewrite int32_id by (unfold in_int32; lia).
    apply (is_ceil_at_compat (to_Q (Add amount fee))); [apply Add_exact |].
    apply RoundCeil_is_ceil; [unfold in_int32 |]; lia.
  - apply is_ceil_at_bounds. rewrite HF, HR.
    rewrite int32_id by (unfold in_int32; lia).
    apply (is_ceil_at_compat (to_Q product)); [apply Mul_exact, Hmul |].
    apply RoundCeil_is_ceil; [unfold in_int32 |]; lia.
Qed.

End Extras.

(** * ASCII codes *)

#[local] Existing Instance ASCII.strings.
Import testdata.

Ltac lookup := apply first_match_find; vm_compute; reflexivity.
Ltac differ := vm_compute; discriminate.

(** On ASCII text the registry holds a code exactly when it holds the
    upper-cased code. *)
Lemma ASCII_present_upper c code cur :
  present c (upper code) cur <-> present c code cur.
Proof.
  unfold present. rewrite !first_match_find.
  assert (E : find (fun x => EqualFold (ISOCode x) (upper code)) (currencies c)
              = find (fun x => EqualFold (ISOCode x) code) (currencies c)).
  { assert (Hx : forall s, EqualFold s (upper code) = EqualFold s code)
      by (intros s; apply ASCII_EqualFold_upper).
    induction (currencies c) as [| x l IH]; cbn [find]; [reflexivity |].
    rewrite Hx, IH. reflexivity. }
  rewrite E. reflexivity.
Qed.

Lemma ASCII_absent_upper c code :
  absent c (upper code) <-> absent c code.
Proof.
  unfold absent.
  assert (Hx : forall s, EqualFold s (upper code) = EqualFold s code)
    by (intros s; apply ASCII_EqualFold_upper).
  induction (currencies c) as [| x l IH].
  - split; constructor.
  - split; intros H; inversion H as [| ? ? Hm Hl]; subst;
      (constructor; [| apply IH, Hl]); unfold matches in *.
    + rewrite <- Hx. exact Hm.
    + rewrite Hx. exact Hm.
Qed.

(** [FindCurrency("usd") == FindCurrency("USD")], in every registry that
    holds a currency with that code. *)
Lemma FindCurrency_usd_USD c cur :
  present c "USD" cur ->
  FindCurrency c "usd" = ([EvFindCurrency "usd"], Ok cur) /\
  FindCurrency c "USD" = ([EvFindCurrency "USD"], Ok cur).
Proof.
  intros H. split; [| apply FindCurrency_present, H].
  apply FindCurrency_present.
  apply ASCII_present_upper. apply ASCII_present_upper in H. exact H.
Qed.

(** [TestCalculateRate]: the rates the test expects, rounded up at two
    digits as the test does. *)
Example TestCalculateRate_same :
  outcome (CalculateRate rates "USD" "USD" "USD") = Ok (New 1 0).
Proof. reflexivity. Qed.

Example TestCalculateRate_base_to_target :
  outcome (CalculateRate rates "USD" "USD" "EUR") = Ok (New 118 (-2)).
Proof. reflexivity. Qed.

Example TestCalculateRate_target_to_base :
  outcome (CalculateRate rates "USD" "EUR" "USD")
    = Ok (New 11764705882352941 (-16)) /\
  RoundCeil (New 11764705882352941 (-16)) 2 = New 118 (-2).
Proof. split; vm_compute; reflexivity. Qed.

Example TestCalculateRate_cross :
  outcome (CalculateRate rates "USD" "EUR" "JPY")
    = Ok (New 145235294117647056645 (-18)) /\
  RoundCeil (New 145235294117647056645 (-18)) 2 = New 14524 (-2).
Proof. split; vm_compute; reflexivity. Qed.

Example TestCalculateRate_no_from :
  outcome (CalculateRate rates "USD" "ZZZ" "EUR") = Err (ErrCurrencyNotFound "ZZZ").
Proof. reflexivity. Qed.

Example TestCalculateRate_no_to :
  outcome (CalculateRate rates "USD" "EUR" "ZZZ") = Err (ErrCurrencyNotFound "ZZZ").
Proof. reflexivity. Qed.

Example TestNewQuote_ValidInput now :
  outcome (NewQuote now (Some quote_rates) "USD" "USD" "EUR" (New 100 0) (New 5 0))
    = Ok (quote_want now).
Proof. reflexivity. Qed.

(** *** The claims at the registries of the tests *)

Lemma CalculateRate_identity_witness :
  upper "gbp" = upper "GBP" /\
  absent rates (upper "ZZZ") /\
  (CalculateRate rates "ZZZ" "gbp" "GBP"
     = ([EvCalculateRate "ZZZ" "gbp" "GBP"], Ok (NewFromInt 1)) /\
   forall code,
     ~ In (EvFindCurrency code) (trace (CalculateRate rates "ZZZ" "gbp" "GBP"))).
Proof.
  split; [reflexivity |].
  split; [apply absent_find; reflexivity |].
  apply CalculateRate_identity. reflexivity.
Defined.

Lemma CalculateRate_base_to_target_witness :
  present rates (upper "usd") USD /\ present rates (upper "eur") EUR /\
  upper "eur" <> upper "usd" /\
  outcome (CalculateRate rates "usd" "usd" "eur") = Ok (SellRate EUR).
Proof.
  assert (Hb : present rates (upper "usd") USD) by lookup.
  assert (Ht : present rates (upper "eur") EUR) by lookup.
  assert (Hne : upper "eur" <> upper "usd") by differ.
  split; [exact Hb |]. split; [exact Ht |]. split; [exact Hne |].
  exact (CalculateRate_base_to_target rates "usd" "eur" USD EUR Hb Ht Hne).
Defined.

Lemma CalculateRate_target_to_base_witness :
  present rates (upper "USD") USD /\ present rates (upper "EUR") EUR /\
  upper "EUR" <> upper "USD" /\
  value (BuyRate EUR) <> 0 /\
  MinInt32 + 17 <= exp (BuyRate EUR) <= MaxInt32 /\
  exists q,
    Div (NewFromInt 1) (BuyRate EUR) = Returns q /\
    outcome (CalculateRate rates "USD" "EUR" "USD") = Ok q /\
    exp q = -16 /\
    (Qabs (to_Q q - 1 / to_Q (BuyRate EUR)) <= (1 # 2) * (10 # 1) ^ (-16))%Q.
Proof.
  assert (Hb : present rates (upper "USD") USD) by lookup.
  assert (Hf : present rates (upper "EUR") EUR) by lookup.
  assert (Hne : upper "EUR" <> upper "USD") by differ.
  assert (Hnz : value (BuyRate EUR) <> 0) by differ.
  assert (Hexp : MinInt32 + 17 <= exp (BuyRate EUR) <= MaxInt32)
    by (vm_compute; split; discriminate).
  split; [exact Hb |]. split; [exact Hf |]. split; [exact Hne |].
  split; [exact Hnz |]. split; [exact Hexp |].
  exact (CalculateRate_target_to_base rates "USD" "EUR" USD EUR Hb Hf Hne Hnz Hexp).
Defined.

Lemma CalculateRate_cross_rate_witness :
  present rates (upper "USD") USD /\
  present rates (upper "EUR") EUR /\ present rates (upper "JPY") JPY /\
  upper "EUR" <> upper "USD" /\ upper "JPY" <> upper "USD" /\
  upper "EUR" <> upper "JPY" /\
  value (BuyRate EUR) <> 0 /\
  MinInt32 + 17 <= exp (BuyRate EUR) <= MaxInt32 /\
  MinInt32 + 16 <= exp (SellRate JPY) <= MaxInt32 /\
  exists q r,
    Div (NewFromInt 1) (BuyRate EUR) = Returns q /\
    Mul q (SellRate JPY) = Returns r /\
    outcome (CalculateRate rates "USD" "EUR" "JPY") = Ok r /\
    (Qabs (to_Q q - 1 / to_Q (BuyRate EUR)) <= (1 # 2) * (10 # 1) ^ (-16))%Q /\
    (to_Q r == to_Q q * to_Q (SellRate JPY))%Q.
Proof.
  assert (Hb : present rates (upper "USD") USD) by lookup.
  assert (Hf : present rates (upper "EUR") EUR) by lookup.
  assert (Ht : present rates (upper "JPY") JPY) by lookup.
  assert (Hfb : upper "EUR" <> upper "USD") by differ.
  assert (Htb : upper "JPY" <> upper "USD") by differ.
  assert (Hft : upper "EUR" <> upper "JPY") by differ.
  assert (Hnz : value (BuyRate EUR) <> 0) by differ.
  assert (Hbuy : MinInt32 + 17 <= exp (BuyRate EUR) <= MaxInt32)
    by (vm_compute; split; discriminate).
  assert (Hsell : MinInt32 + 16 <= exp (SellRate JPY) <= MaxInt32)
    by (vm_compute; split; discriminate).
  repeat (split; [assumption |]).
  exact (CalculateRate_cross_rate rates "USD" "EUR" "JPY" USD EUR JPY
           Hb Hf Ht Hfb Htb Hft Hnz Hbuy Hsell).
Defined.

Lemma NewQuote_rounding_witness :
  NewQuote 0 (Some quote_rates) "USD" "USD" "EUR" (New 100 0) (New 5 0)
    = ([EvCalculateRate "USD" "USD" "EUR"; EvFindCurrency "USD";
        EvFindCurrency "EUR"; EvFindCurrency "USD"; EvFindCurrency "EUR"],
       Ok (quote_want 0)) /\
  exists c rate infoFrom infoTo,
    Some quote_rates = Some c /\
    outcome (CalculateRate c "USD" "USD" "EUR") = Ok rate /\
    Rate (quote_want 0) = rate /\
    present c "USD" infoFrom /\ present c "EUR" infoTo /\
    (int32 (Precision infoFrom) <> MinInt32 ->
     is_ceil_at (to_Q (New 100 0) + to_Q (New 5 0)) (int32 (Precision infoFrom))
       (AmountToDeduct (quote_want 0))) /\
    (int32 (Precision infoTo) <> MinInt32 ->
     is_ceil_at (to_Q (New 100 0) * to_Q rate) (int32 (Precision infoTo))
       (FinalAmount (quote_want 0))) /\
    (MinInt32 < Precision infoFrom <= MaxInt32 ->
     is_ceil_at (to_Q (New 100 0) + to_Q (New 5 0)) (Precision infoFrom)
       (AmountToDeduct (quote_want 0))) /\
    (MinInt32 < Precision infoTo <= MaxInt32 ->
     is_ceil_at (to_Q (New 100 0) * to_Q rate) (Precision infoTo)
       (FinalAmount (quote_want 0))).
Proof.
  assert (H : NewQuote 0 (Some quote_rates) "USD" "USD" "EUR" (New 100 0) (New 5 0)
              = ([EvCalculateRate "USD" "USD" "EUR"; EvFindCurrency "USD";
                  EvFindCurrency "EUR"; EvFindCurrency "USD"; EvFindCurrency "EUR"],
                 Ok (quote_want 0))) by reflexivity.
  split; [exact H |].
  exact (NewQuote_rounding _ _ _ _ _ _ _ _ _ H).
Defined.

Lemma CalculateRate_base_not_found_witness :
  upper "USD" <> upper "EUR" /\ absent rates (upper "ZZZ") /\
  (CalculateRate rates "ZZZ" "USD" "EUR" =
     ([EvCalculateRate "ZZZ" "USD" "EUR"; EvFindCurrency (upper "ZZZ")],
      Err ErrBaseCurrencyNotFound) /\
   (forall code,
      outcome (CalculateRate rates "ZZZ" "USD" "EUR")
      <> Err (ErrCurrencyNotFound code)) /\
   (exists e, outcome (FindCurrency rates (upper "ZZZ")) = Err e /\
              (e = ErrEmptyCurrencySource \/ e = ErrCurrencyNotFound (upper "ZZZ")) /\
              outcome (CalculateRate rates "ZZZ" "USD" "EUR") <> Err e)).
Proof.
  assert (Hft : upper "USD" <> upper "EUR") by differ.
  assert (Hb : absent rates (upper "ZZZ")) by (apply absent_find; reflexivity).
  split; [exact Hft |]. split; [exact Hb |].
  exact (CalculateRate_base_not_found rates "ZZZ" "USD" "EUR" Hft Hb).
Defined.

Lemma FindCurrency_case_insensitive_witness :
  (forall s t, EqualFold s t = EqualFold t s) /\
  (forall s t u, EqualFold s t = true -> EqualFold t u = true ->
                 EqualFold s u = true) /\
  currencies rates <> [] /\ EqualFold "usd" "USD" = true /\
  ((exists cur, present rates "usd" cur /\ present rates "USD" cur /\
                outcome (FindCurrency rates "usd") = Ok cur /\
                outcome (FindCurrency rates "USD") = Ok cur) \/
   (absent rates "usd" /\ absent rates "USD" /\
    outcome (FindCurrency rates "usd") = Err (ErrCurrencyNotFound "usd") /\
    outcome (FindCurrency rates "USD") = Err (ErrCurrencyNotFound "USD"))).
Proof.
  assert (Hne : currencies rates <> []) by discriminate.
  assert (Heq : EqualFold "usd" "USD" = true) by reflexivity.
  split; [exact ASCII_EqualFold_sym |]. split; [exact ASCII_EqualFold_trans |].
  split; [exact Hne |]. split; [exact Heq |].
  exact (FindCurrency_case_insensitive ASCII_EqualFold_sym ASCII_EqualFold_trans
           rates "usd" "USD" Hne Heq).
Defined.

Lemma CalculateRate_zero_buy_rate_witness :
  present rates_zero (upper "USD") USD /\ present rates_zero (upper "XTS") XTS /\
  upper "XTS" <> upper "USD" /\
  value (BuyRate XTS) = 0 /\
  outcome (CalculateRate rates_zero "USD" "XTS" "USD") = Panic PanicDivisionByZero /\
  forall t recT,
    present rates_zero (upper t) recT -> upper t <> upper "USD" ->
    upper "XTS" <> upper t ->
    outcome (CalculateRate rates_zero "USD" "XTS" t) = Panic PanicDivisionByZero.
Proof.
  assert (Hb : present rates_zero (upper "USD") USD) by lookup.
  assert (Hf : present rates_zero (upper "XTS") XTS) by lookup.
  assert (Hne : upper "XTS" <> upper "USD") by differ.
  assert (Hz : value (BuyRate XTS) = 0) by reflexivity.
  split; [exact Hb |]. split; [exact Hf |]. split; [exact Hne |].
  split; [exact Hz |].
  exact (CalculateRate_zero_buy_rate rates_zero "USD" "XTS" USD XTS Hb Hf Hne Hz).
Defined.

(** *** Where the claims stop *)

(** A divisor or a factor at the far end of the exponent range makes the
    decimal operations panic before they compute. *)
Example Div_exponent_overflow :
  Div (NewFromInt 1) (New 1 MinInt32) = Panics PanicQuoRemOverflow /\
  Mul (New 1 (-16)) (New 1 MinInt32)
    = Panics (PanicExponentOverflow (-2147483664)).
Proof. split; reflexivity. Qed.

(** The quotient is rounded: at the rates of the test, [Div 1 0.85] is
    1.1764705882352941, and times 0.85 that is not 1. *)
Example Div_is_rounded :
  Div (NewFromInt 1) (BuyRate EUR) = Returns (New 11764705882352941 (-16)) /\
  ~ (to_Q (New 11764705882352941 (-16)) * to_Q (BuyRate EUR) == 1)%Q.
Proof.
  split; [reflexivity |]. intros H. vm_compute in H. discriminate H.
Qed.

(** One is no multiple of a positive power of ten. *)
Lemma not_ceil_at_coarse x n r :
  0 < n -> (to_Q r == 1)%Q -> ~ is_ceil_at x (- n) r.
Proof.
  intros Hn Hr (_ & [k Hk] & _).
  rewrite Hr, Z.opp_involutive in Hk.
  change (10 # 1)%Q with (inject_Z 10) in Hk.
  rewrite <- Zpower_Qpower, <- inject_Z_mult in Hk by lia.
  change 1%Q with (inject_Z 1) in Hk. apply -> inject_Z_injective in Hk.
  pose proof (Z.pow_gt_1 10 n ltac:(lia)) as [Hgt _].
  specialize (Hgt Hn). destruct (Z_le_gt_dec k 0); nia.
Qed.

(** At the least [int32], [RoundCeil] leaves its argument as it is: the
    negation of [places] overflows. *)
Example RoundCeil_least_places :
  RoundCeil (New 1 0) MinInt32 = New 1 0 /\
  ~ is_ceil_at (to_Q (New 1 0)) MinInt32 (New 1 0).
Proof.
  split; [reflexivity |].
  apply (not_ceil_at_coarse (to_Q (New 1 0)) 2147483648 (New 1 0));
    [reflexivity | reflexivity].
Qed.

(** C7 as the specification states it, for an empty sequence: an empty
    [[]byte] is a source without elements, and [NewCurrencies] fails on it
    with the decode error, not with [ErrEmptyCurrencySource]. *)
Lemma NewCurrencies_empty_bytes_counterexample :
  (forall marshalElems unmarshalOther,
      json.Marshal Byte.byte true marshalElems false [] = inr json.emptyString /\
      json.Unmarshal unmarshalOther json.emptyString
        = inl json.stringIntoCurrencies /\
      NewCurrencies Byte.byte (json.Marshal Byte.byte true marshalElems false)
        (json.Unmarshal unmarshalOther) []
        = Err (ErrJSON json.stringIntoCurrencies)) /\
  ErrJSON json.stringIntoCurrencies <> ErrEmptyCurrencySource.
Proof.
  split; [| discriminate].
  intros marshalElems unmarshalOther. repeat split; reflexivity.
Qed.

(** C2 as the specification states it, without a condition on the buy
    rate: the registry holds USD, XTS and JPY under different codes, and the
    cross rate from XTS to JPY is a panic, not a rate. *)
Lemma CalculateRate_cross_rate_counterexample :
  present rates_zero (upper "USD") USD /\
  present rates_zero (upper "XTS") XTS /\ present rates_zero (upper "JPY") JPY /\
  upper "XTS" <> upper "USD" /\ upper "JPY" <> upper "USD" /\
  upper "XTS" <> upper "JPY" /\
  outcome (CalculateRate rates_zero "USD" "XTS" "JPY") = Panic PanicDivisionByZero /\
  forall r, outcome (CalculateRate rates_zero "USD" "XTS" "JPY") <> Ok r.
Proof.
  repeat (split; [first [lookup | differ | reflexivity] |]).
  intros r. vm_compute. discriminate.
Qed.

(** C4 as the specification states it: the registry holds USD and XTS under
    different codes, and the rate from XTS to the base is a panic. *)
Lemma CalculateRate_target_to_base_counterexample :
  present rates_zero (upper "USD") USD /\ present rates_zero (upper "XTS") XTS /\
  upper "XTS" <> upper "USD" /\
  outcome (CalculateRate rates_zero "USD" "XTS" "USD") = Panic PanicDivisionByZero /\
  forall q, outcome (CalculateRate rates_zero "USD" "XTS" "USD") <> Ok q.
Proof.
  repeat (split; [first [lookup | differ | reflexivity] |]).
  intros q. vm_compute. discriminate.
Qed.

(** C5 as the specification states it, at the precision of the currency:
    with a precision of [2 ^ 32 + 2] digits the quote for 1.234 deducts
    1.24, which is 1.234 rounded up at 2 digits and not at [2 ^ 32 + 2]. *)
Lemma NewQuote_rounding_counterexample :
  outcome (NewQuote 0 (Some rates_big) "BIG" "BIG" "BIG" (New 1234 (-3)) (New 0 0))
    = Ok (quote_big 0) /\
  present rates_big "BIG" BIG /\
  (forall cur, present rates_big "BIG" cur -> cur = BIG) /\
  ~ is_ceil_at (to_Q (New 1234 (-3)) + to_Q (New 0 0)) (Precision BIG)
      (AmountToDeduct (quote_big 0)).
Proof.
  assert (Hp : present rates_big "BIG" BIG) by lookup.
  split; [reflexivity |]. split; [exact Hp |].
  split; [intros cur H; exact (first_match_inj _ _ _ _ H Hp) |].
  intros H.
  apply (is_ceil_at_fine _ _ (New 1234 (-3))) in H.
  - vm_compute in H. discriminate H.
  - vm_compute. reflexivity.
  - cbn [Precision BIG exp]. lia.
Qed.

(** *** The further properties at the registries of the tests *)

Import moredata.

Lemma FindCurrency_first_wins_witness :
  FindCurrency rates_twice "eur" = ([EvFindCurrency "eur"], Ok EUR) /\
  exists before after,
    currencies rates_twice = before ++ EUR :: after /\
    EqualFold (ISOCode EUR) "eur" = true /\
    forall x, In x before -> EqualFold (ISOCode x) "eur" = false.
Proof.
  assert (H : FindCurrency rates_twice "eur" = ([EvFindCurrency "eur"], Ok EUR))
    by reflexivity.
  split; [exact H |].
  exact (FindCurrency_first_wins rates_twice "eur" _ EUR H).
Defined.

Lemma FindCurrency_member_witness :
  In JPY (currencies rates) /\ EqualFold (ISOCode JPY) "jpy" = true /\
  ((exists cur', outcome (FindCurrency rates "jpy") = Ok cur' /\
                 In cur' (currencies rates) /\
                 EqualFold (ISOCode cur') "jpy" = true) /\
   ((forall x, In x (currencies rates) -> EqualFold (ISOCode x) "jpy" = true ->
               x = JPY) ->
    outcome (FindCurrency rates "jpy") = Ok JPY)).
Proof.
  assert (Hin : In JPY (currencies rates)) by (simpl; auto).
  assert (Hm : EqualFold (ISOCode JPY) "jpy" = true) by reflexivity.
  split; [exact Hin |]. split; [exact Hm |].
  exact (FindCurrency_member rates "jpy" JPY Hin Hm).
Defined.

Lemma NewCurrencies_then_FindCurrency_witness :
  NewCurrencies unit units_Marshal units_Unmarshal [tt; tt]
    = Ok {| currencies := [USD; USD] |} /\
  ((forall code,
      outcome (FindCurrency {| currencies := [USD; USD] |} code)
      <> Err ErrEmptyCurrencySource) /\
   (forall cur,
      In cur (currencies {| currencies := [USD; USD] |}) ->
      EqualFold (ISOCode cur) (ISOCode cur) = true ->
      exists cur',
        outcome (FindCurrency {| currencies := [USD; USD] |} (ISOCode cur))
          = Ok cur' /\
        EqualFold (ISOCode cur') (ISOCode cur) = true)).
Proof.
  assert (H : NewCurrencies unit units_Marshal units_Unmarshal [tt; tt]
              = Ok {| currencies := [USD; USD] |}) by reflexivity.
  split; [exact H |].
  exact (NewCurrencies_then_FindCurrency unit units_Marshal units_Unmarshal
           [tt; tt] _ H).
Defined.

Lemma CalculateRate_errors_witness :
  outcome (CalculateRate rates "USD" "zzz" "EUR") = Err (ErrCurrencyNotFound "ZZZ") /\
  upper "zzz" <> upper "EUR" /\
  ((ErrCurrencyNotFound "ZZZ" = ErrBaseCurrencyNotFound /\ absent rates (upper "USD")) \/
   (ErrCurrencyNotFound "ZZZ" = ErrCurrencyNotFound (upper "zzz") /\
    absent rates (upper "zzz")) \/
   (ErrCurrencyNotFound "ZZZ" = ErrCurrencyNotFound (upper "EUR") /\
    absent rates (upper "EUR"))) /\
  ErrCurrencyNotFound "ZZZ" <> ErrEmptyCurrencySource.
Proof.
  assert (H : outcome (CalculateRate rates "USD" "zzz" "EUR")
              = Err (ErrCurrencyNotFound "ZZZ")) by reflexivity.
  split; [exact H |].
  exact (CalculateRate_errors rates "USD" "zzz" "EUR" _ H).
Defined.

Lemma CalculateRate_from_not_found_witness :
  present rates (upper "USD") USD /\ upper "zzz" <> upper "yyy" /\
  absent rates (upper "zzz") /\
  CalculateRate rates "USD" "zzz" "yyy" =
    ([EvCalculateRate "USD" "zzz" "yyy"; EvFindCurrency (upper "USD");
      EvFindCurrency (upper "zzz")],
     Err (ErrCurrencyNotFound (upper "zzz"))).
Proof.
  assert (Hb : present rates (upper "USD") USD) by lookup.
  assert (Hft : upper "zzz" <> upper "yyy") by differ.
  assert (Ha : absent rates (upper "zzz")) by (apply absent_find; reflexivity).
  split; [exact Hb |]. split; [exact Hft |]. split; [exact Ha |].
  exact (CalculateRate_from_not_found rates "USD" "zzz" "yyy" USD Hb Hft Ha).
Defined.

Lemma CalculateRate_to_not_found_witness :
  present rates_zero (upper "USD") USD /\ present rates_zero (upper "XTS") XTS /\
  value (BuyRate XTS) = 0 /\
  upper "XTS" <> upper "zzz" /\ absent rates_zero (upper "zzz") /\
  outcome (CalculateRate rates_zero "USD" "XTS" "zzz")
    = Err (ErrCurrencyNotFound (upper "zzz")).
Proof.
  assert (Hb : present rates_zero (upper "USD") USD) by lookup.
  assert (Hf : present rates_zero (upper "XTS") XTS) by lookup.
  assert (Hft : upper "XTS" <> upper "zzz") by differ.
  assert (Ha : absent rates_zero (upper "zzz")) by (apply absent_find; reflexivity).
  split; [exact Hb |]. split; [exact Hf |]. split; [reflexivity |].
  split; [exact Hft |]. split; [exact Ha |].
  exact (CalculateRate_to_not_found rates_zero "USD" "XTS" "zzz" USD XTS Hb Hf Hft Ha).
Defined.

Lemma CalculateRate_upper_only_witness :
  upper "usd" = upper "Usd" /\ upper "eur" = upper "EUR" /\
  upper "jpy" = upper "JpY" /\
  outcome (CalculateRate rates "usd" "eur" "jpy")
    = outcome (CalculateRate rates "Usd" "EUR" "JpY").
Proof.
  assert (Hb : upper "usd" = upper "Usd") by reflexivity.
  assert (Hf : upper "eur" = upper "EUR") by reflexivity.
  assert (Ht : upper "jpy" = upper "JpY") by reflexivity.
  split; [exact Hb |]. split; [exact Hf |]. split; [exact Ht |].
  exact (CalculateRate_upper_only rates "usd" "eur" "jpy" "Usd" "EUR" "JpY" Hb Hf Ht).
Defined.

Lemma CalculateRate_division_by_zero_cause_witness :
  outcome (CalculateRate rates_zero "USD" "xts" "JPY") = Panic PanicDivisionByZero /\
  upper "xts" <> upper "JPY" /\ upper "xts" <> upper "USD" /\
  exists recF, present rates_zero (upper "xts") recF /\ value (BuyRate recF) = 0.
Proof.
  assert (H : outcome (CalculateRate rates_zero "USD" "xts" "JPY")
              = Panic PanicDivisionByZero) by reflexivity.
  split; [exact H |].
  exact (CalculateRate_division_by_zero_cause rates_zero "USD" "xts" "JPY" H).
Defined.

Lemma CalculateRate_success_needs_codes_witness :
  outcome (CalculateRate rates "USD" "EUR" "JPY")
    = Ok (New 145235294117647056645 (-18)) /\
  ((upper "EUR" = upper "JPY" /\
    New 145235294117647056645 (-18) = NewFromInt 1) \/
   (upper "EUR" <> upper "JPY" /\
    exists recB recF recT,
      present rates (upper "USD") recB /\
      present rates (upper "EUR") recF /\ present rates (upper "JPY") recT)).
Proof.
  assert (H : outcome (CalculateRate rates "USD" "EUR" "JPY")
              = Ok (New 145235294117647056645 (-18))) by (vm_compute; reflexivity).
  split; [exact H |].
  exact (CalculateRate_success_needs_codes rates "USD" "EUR" "JPY" _ H).
Defined.

Lemma NewQuote_succeeds_witness :
  CalculateRate quote_rates "USD" "USD" "EUR"
    = ([EvCalculateRate "USD" "USD" "EUR"; EvFindCurrency "USD";
        EvFindCurrency "EUR"], Ok (New 95 (-2))) /\
  present quote_rates "USD" USD /\ present quote_rates "EUR" EUR95 /\
  in_int32 (exp (New 100 0) + exp (New 95 (-2))) /\
  NewQuote 7 (Some quote_rates) "USD" "USD" "EUR" (New 100 0) (New 5 0) =
    ([EvCalculateRate "USD" "USD" "EUR"; EvFindCurrency "USD";
      EvFindCurrency "EUR"] ++ [EvFindCurrency "USD"; EvFindCurrency "EUR"],
     Ok {| BaseCurrency := "USD"; FromCurrency := "USD";
           FromAmount := New 100 0; Fee := New 5 0;
           AmountToDeduct :=
             RoundCeil (Add (New 100 0) (New 5 0)) (int32 (Precision USD));
           Rate := New 95 (-2); ToCurrency := "EUR";
           FinalAmount :=
             RoundCeil (New (value (New 100 0) * value (New 95 (-2)))
                            (exp (New 100 0) + exp (New 95 (-2))))
               (int32 (Precision EUR95));
           Date := 7 |}).
Proof.
  assert (Hr : CalculateRate quote_rates "USD" "USD" "EUR"
               = ([EvCalculateRate "USD" "USD" "EUR"; EvFindCurrency "USD";
                   EvFindCurrency "EUR"], Ok (New 95 (-2)))) by reflexivity.
  assert (Hf : present quote_rates "USD" USD) by lookup.
  assert (Ht : present quote_rates "EUR" EUR95) by lookup.
  assert (Hexp : in_int32 (exp (New 100 0) + exp (New 95 (-2))))
    by (vm_compute; split; discriminate).
  split; [exact Hr |]. split; [exact Hf |]. split; [exact Ht |].
  split; [exact Hexp |].
  exact (NewQuote_succeeds 7 quote_rates "USD" "USD" "EUR" (New 100 0) (New 5 0)
           _ _ USD EUR95 Hr Hf Ht Hexp).
Defined.

Lemma NewQuote_errors_witness :
  outcome (NewQuote 0 (Some rates) "USD" "USD" "zzz" (New 100 0) (New 5 0))
    = Err (ErrCurrencyNotFound "ZZZ") /\
  (ErrCurrencyNotFound "ZZZ" = ErrBaseCurrencyNotFound \/
   ErrCurrencyNotFound "ZZZ" = ErrCurrencyNotFound (upper "USD") \/
   ErrCurrencyNotFound "ZZZ" = ErrCurrencyNotFound (upper "zzz") \/
   ErrCurrencyNotFound "ZZZ" = ErrCurrencyNotFound "USD" \/
   ErrCurrencyNotFound "ZZZ" = ErrCurrencyNotFound "zzz" \/
   (ErrCurrencyNotFound "ZZZ" = ErrEmptyCurrencySource /\
    currencies rates = [] /\ upper "USD" = upper "zzz")).
Proof.
  assert (H : outcome (NewQuote 0 (Some rates) "USD" "USD" "zzz" (New 100 0) (New 5 0))
              = Err (ErrCurrencyNotFound "ZZZ")) by reflexivity.
  split; [exact H |].
  exact (NewQuote_errors 0 rates "USD" "USD" "zzz" (New 100 0) (New 5 0) _ H).
Defined.

Lemma NewQuote_same_currency_unknown_witness :
  upper "gbp" = upper "GBP" /\ absent rates "gbp" /\
  outcome (CalculateRate rates "USD" "gbp" "GBP") = Ok (NewFromInt 1) /\
  NewQuote 0 (Some rates) "USD" "gbp" "GBP" (New 100 0) (New 5 0) =
    ([EvCalculateRate "USD" "gbp" "GBP"; EvFindCurrency "gbp"],
     Err (if Z.of_nat (List.length (currencies rates)) =? 0
          then ErrEmptyCurrencySource else ErrCurrencyNotFound "gbp")).
Proof.
  assert (Heq : upper "gbp" = upper "GBP") by reflexivity.
  assert (Ha : absent rates "gbp") by (apply absent_find; reflexivity).
  split; [exact Heq |]. split; [exact Ha |]. split; [reflexivity |].
  exact (NewQuote_same_currency_unknown 0 rates "USD" "gbp" "GBP"
           (New 100 0) (New 5 0) Heq Ha).
Defined.

Lemma NewQuote_amount_bounds_witness :
  NewQuote 0 (Some rates) "USD" "EUR" "JPY" (New 1001 (-3)) (New 5 (-4)) =
    ([EvCalculateRate "USD" "EUR" "JPY"; EvFindCurrency "USD";
      EvFindCurrency "EUR"; EvFindCurrency "JPY"; EvFindCurrency "EUR";
      EvFindCurrency "JPY"],
     Ok {| BaseCurrency := "USD"; FromCurrency := "EUR";
           FromAmount := New 1001 (-3); Fee := New 5 (-4);
           AmountToDeduct := New 101 (-2);
           Rate := New 145235294117647056645 (-18);
           ToCurrency := "JPY";
           FinalAmount := New 14539 (-2);
           Date := 0 |}) /\
  exists c infoFrom infoTo,
    Some rates = Some c /\ present c "EUR" infoFrom /\ present c "JPY" infoTo /\
    (MinInt32 < Precision infoFrom <= MaxInt32 ->
     (to_Q (New 1001 (-3)) + to_Q (New 5 (-4)) <= to_Q (New 101 (-2)))%Q /\
     (to_Q (New 101 (-2))
      < to_Q (New 1001 (-3)) + to_Q (New 5 (-4))
        + (10 # 1) ^ (- Precision infoFrom))%Q) /\
    (MinInt32 < Precision infoTo <= MaxInt32 ->
     (to_Q (New 1001 (-3)) * to_Q (New 145235294117647056645 (-18))
      <= to_Q (New 14539 (-2)))%Q /\
     (to_Q (New 14539 (-2))
      < to_Q (New 1001 (-3)) * to_Q (New 145235294117647056645 (-18))
        + (10 # 1) ^ (- Precision infoTo))%Q).
Proof.
  split; [vm_compute; reflexivity |].
  exact (NewQuote_amount_bounds 0 (Some rates) "USD" "EUR" "JPY"
           (New 1001 (-3)) (New 5 (-4)) _ _
           (eq_refl : NewQuote 0 (Some rates) "USD" "EUR" "JPY"
                        (New 1001 (-3)) (New 5 (-4)) = (_, Ok _))).
Defined.
